(* ===== verification/_CoqProject ===== *)
-Q . S2P
Prelude.v
PyValue.v
Soup.v
Csv.v
CsvLimit.v
Scraper.v
Agree.v
RowSpec.v
Progress.v
Effects.v
