(* ===== verification/Prelude.v ===== *)
(** * Verification of [nc_polling_places.py] (skemper/hcip2)

    The program is one Python script, [src/nc_polling_places.py].  It
    opens [nc_polling_places.csv] with a [csv.writer] (lines 14-16); for
    each county id of [range(1, 101)] (line 18) it posts the id to the
    precinct-list endpoint and decodes the JSON reply (lines 19-20); for
    each precinct of the reply that is not the placeholder
    ["<Select a Precinct>"] (lines 21-23) it formats the detail URL with
    [%d] (line 26), fetches and parses the detail page (lines 26-27),
    extracts the address from the page with BeautifulSoup (line 30),
    writes one row (line 31) and sleeps a second (line 32).  Any exception
    ends the run, and the [with] statement closes the file on every exit.

    ** Files

    - [Prelude.v] (this file): the result type [res] and a state-and-
      exception monad [stE S E] (notations in [se_scope]) in which the
      script is written; its laws; three generic ways of reasoning about a
      monadic program: invariants ([preserves]), Hoare triples with a
      normal and an exceptional postcondition ([triple]), and trace
      extension ([extends]), each with a rule per combinator (bind,
      [for_each] = a Python [for] loop, [try_finally] = a [with] block);
      a cost calculus ([bounded mu k m]: [m] raises the measure [mu] of
      the state by at most [k]); an exception calculus ([raises_only ok m]:
      every exception of [m] satisfies [ok], tactic [raises_chain]); pointwise equivalence of computations
      ([stE_eq]) with [Proper] instances for the combinators and the
      congruence tactic [stE_congr]; shared lemmas on strings and lists;
      the hint databases [se], [se_rw] and [strings].
    - [PyValue.v], Module [Py]: the values [response.json()] produces
      ([pyval]: [None], bools, ints, binary64 floats as
      [SpecFloat.spec_float] with [inf] and [nan], strings, lists, dicts
      as their members in order, the last binding of a repeated key
      winning), what [.json()] raises on a body it cannot decode
      ([json_body], [json_result]: [JSONDecodeError], the [ValueError] of
      an integer over 4300 digits, the [RecursionError] of too deep
      nesting), the exceptions of the script ([exn]), and the operations
      it applies to values: subscription [v[k]] ([getitem], with
      [KeyError]/[TypeError]), iteration ([py_iter]), [==] with a string
      ([py_eq_str]), ['%d' % v] ([d_int] then [fmt_d]: bools as 0/1,
      floats truncated, [OverflowError] on [inf], [ValueError] on [nan]),
      [str()] and [repr()] ([py_str], [py_repr]; a float's [repr] is
      CPython's shortest round-trip form, [float_repr]).  Module [PyFacts]:
      [int_str] is injective and uses only digits and [-]; a float's
      [repr] never contains [<].
    - [Soup.v], Module [Soup]: the parse tree of the detail page ([node]),
      [Tag.find] ([find_node], [find_in]; pre-order over descendants),
      [tag.p]/[tag.a] ([getattr_tag], [AttributeError] on [None]),
      [stripped_strings] with [str.strip], and line 30 as [place_addr].
      Module [SoupFacts]: the error cases of line 30 (C12); the address
      depends on the page only up to comments and whitespace-only strings
      ([denoise], [noise_eq], [Proper] instance [place_addr_proper], C13).
    - [Csv.v], Module [Csv]: [csv.writer] in the script's dialect
      ([quote_field], [writerow_text], [writerow]).  Module [CsvReader]:
      CPython's [csv.reader] state machine in the same dialect, modelled
      from the spec (it is not code of the repository) to state the round
      trip, parametrised by the field size limit ([parse_char lim];
      [process], [read_str], [csv_read] are the instances with the limit
      lifted, [csv_read_default] the one with CPython's default 131072).
      Module [CsvFacts]: reading back any sequence of written rows gives
      those rows (C3).
    - [CsvLimit.v], Module [CsvLimit]: a limited reader refines the
      unlimited one, so written text reads back as the rows written or
      not at all, every field within the limit (C18); the default reader
      reads written rows back exactly when every field has at most 131072
      characters (C19).  The reading lemmas of [CsvFacts] are stated for
      every limit, under the condition that the fields fit ([within],
      [fits_in]).
    - [Scraper.v], Module [Scraper]: the whole script as a computation of
      [stE world exn] over a server environment [env] (answers may depend
      on the whole history of requests) and the [world] (file contents and
      event trace): [open_output], [load_precincts] (lines 19-20),
      [fetch_page] (26-27), [write_row] (31), [sleep] (32),
      [process_precinct] (21-32, subscripts in Python's evaluation order),
      [process_county] (18-32), [main] (14-32), [run].  Module
      [ScraperFacts]: for every server, the file reads back as the rows
      written even after an exception (C2) and never holds a placeholder
      row (C1); the counties are posted in order 1..100 with no gap (C4);
      the trace follows the protocol automaton and ends closed (C5); a
      run that stops right after a detail GET stops on a transport,
      resolver or missing-[Label] exception (C11); read as endpoint B
      reads a query string ([read_addr_url]), the detail URL carries the
      precinct's two ids under their names (C14); county ids are in
      [1, 100] when the server echoes the requested county (C15).  The
      generic row invariant [rows_ok R] (with [row_cond], [rows_ok_run])
      carries every statement of the form "every written row satisfies R".
    - [Agree.v], Module [Agree]: what the script reads of a reply
      ([post_outcome] for lines 19-20, [get_outcome] for lines 26-27);
      servers [agree] when they give the same outcomes after every
      history; [agree] is an [Equivalence] and [run] is [Proper] for it,
      so servers are replaced by agreeing ones by setoid rewriting; no
      status code of any reply changes the run (C7).
    - [RowSpec.v], Module [RowSpec]: what the script writes as a pure
      specification with no world or trace ([expected_rows]: counties in
      order, precincts in order, placeholder skipped, first exception
      wins), for a server whose answers depend only on the request
      ([stateless]).  Module [RowRefinement]: a simulation [impl] between
      a monadic step and a specified result, one rule per construct of the
      script, and the refinement theorem that [run] implements the
      specification (C6).
    - [Progress.v], Module [Progress]: the endpoints' contract as a
      record of obligations [serves_well] (the file opens, replies are
      lists of complete precincts or the placeholder, pages have the
      container); under it the run completes (C8, liveness).  With the
      cost calculus and the measure [gets] (the number of detail
      requests), a run makes at most [100 * n] detail requests when no
      reply lists more than [n] items (C16).
    - [Effects.v], Module [Effects]: every exception a run raises falls in
      the spec's taxonomy or the schema class it leaves out (C10); every
      row follows the GET of its detail URL, whose county id renders the
      same value as the row's first field (C9); one sleep per row, and one
      fetch per row on completion (C17); the script's output file reads
      back under the default reader exactly when no written field exceeds
      131072 characters (C20).

    ** Bounds and fuel

    Every definition of the script is structurally recursive (loops are
    over lists, the county range is the list [county_ids]); no fuel is
    needed, and all theorems hold for every length of reply, page and
    field.  The script terminates because its loops are over finite
    lists; C16 bounds its work by the county range and the reply sizes.
    Integers are Python integers (unbounded [Z]); [%d] and [str()] of an
    integer are [int_str] for every [Z] (the decoder never yields an
    integer over 4300 digits: it raises instead, [IntTooLong]).  The one
    bounded search is CPython's shortest float [repr] ([shortest]), which
    tries 1 to 17 significant digits: 17 digits always identify a
    binary64 float, so the bound is never reached on a decoded float.

    ** Not modelled

    The HTTP transport ([requests]), the JSON decoder and the HTML parser
    are libraries the script only calls: their results are the inputs
    [env_post] (a decoded value or the decoder's failure) and [env_get]
    (a parse tree or the parser's rejection).  Writing to the output file never fails in the
    model: an [OSError] of [write] or of the final flush (a full disk) is
    not modelled, since the file would then hold an unknown part of the
    buffered rows.  Characters are Latin-1 ([ascii] here is 8-bit); code
    points above 255 are not modelled, among them the lone surrogates a
    JSON [\ud800] escape decodes to, which make the UTF-8 write raise
    [UnicodeEncodeError].  The wall-clock duration of [time.sleep] is not
    modelled, only its place in the order of effects.  Line 28
    ([ppdiv = soup.find(...)]) has no effect (its value is never used and
    [find] cannot fail), so it is not a step of [process_precinct].  Lines
    1-10 are imports. *)

From Stdlib Require Import String Ascii List ZArith Lia Bool.
From Stdlib Require Import Morphisms Setoid.
Import ListNotations.

(** ** Results of fallible code *)

(** A computation that may raise an exception of type [E]. *)
Inductive res (E A : Type) : Type :=
| Ok (a : A)
| Err (e : E).
Arguments Ok {E A} a.
Arguments Err {E A} e.

(** Sequencing of pure fallible steps. *)
Definition res_bind {E A B} (r : res E A) (k : A -> res E B) : res E B :=
  match r with
  | Ok a => k a
  | Err e => Err e
  end.

(** The value of a success, transformed. *)
Definition res_map {E A B} (f : A -> B) (r : res E A) : res E B :=
  match r with
  | Ok a => Ok (f a)
  | Err e => Err e
  end.

Lemma res_bind_assoc {E A B C} (r : res E A) (k : A -> res E B) (h : B -> res E C) :
  res_bind (res_bind r k) h = res_bind r (fun a => res_bind (k a) h).
Proof. destruct r; reflexivity. Qed.

Lemma res_bind_ok {E A B} (a : A) (k : A -> res E B) : res_bind (Ok a) k = k a.
Proof. reflexivity. Qed.

(** ** A state-and-exception monad

    [stE S E A] threads a state [S] through a computation that returns a
    value of type [A] or raises an exception of type [E]; the state reached
    when an exception is raised is kept, as Python keeps the side effects
    performed before a [raise]. *)
Definition stE (S E A : Type) : Type := S -> res E A * S.

Section Monad.
Context {S E : Type}.

Definition ret {A} (a : A) : stE S E A := fun s => (Ok a, s).

Definition bind {A B} (m : stE S E A) (k : A -> stE S E B) : stE S E B :=
  fun s => match m s with
           | (Ok a, s') => k a s'
           | (Err e, s') => (Err e, s')
           end.

Definition raise {A} (e : E) : stE S E A := fun s => (Err e, s).

Definition modify (f : S -> S) : stE S E unit := fun s => (Ok tt, f s).

Definition gets {A} (f : S -> A) : stE S E A := fun s => (Ok (f s), s).

(** Lift a pure fallible result. *)
Definition lift {A} (r : res E A) : stE S E A := fun s => (r, s).

(** [try: m finally: fin]: [fin] runs on every exit path of [m]; an
    exception of [m] is raised again after [fin]. *)
Definition try_finally {A} (m : stE S E A) (fin : stE S E unit) : stE S E A :=
  fun s => match m s with
           | (r, s') => match fin s' with
                        | (Ok _, s'') => (r, s'')
                        | (Err e, s'') => (Err e, s'')
                        end
           end.

(** A Python [for x in l: body] loop: the first exception ends it. *)
Fixpoint for_each {X} (l : list X) (body : X -> stE S E unit) : stE S E unit :=
  match l with
  | [] => ret tt
  | x :: l' => bind (body x) (fun _ => for_each l' body)
  end.
End Monad.

Declare Scope se_scope.
Delimit Scope se_scope with se.
Notation "x <- m ;; k" := (bind m (fun x => k))
  (at level 61, m at next level, right associativity) : se_scope.
Notation "m ;; k" := (bind m (fun _ => k))
  (at level 61, right associativity) : se_scope.
Notation "x <-? r ;; k" := (res_bind r (fun x => k))
  (at level 61, r at next level, right associativity) : se_scope.
Open Scope se_scope.

(** ** Monad laws and loop equations *)

Create HintDb se discriminated.
Create Rewrite HintDb se_rw.
Create Rewrite HintDb strings.

Section MonadLaws.
Context {S E : Type}.

Lemma bind_ret_l {A B} (a : A) (k : A -> stE S E B) s :
  bind (ret a) k s = k a s.
Proof. reflexivity. Qed.

Lemma bind_ret_r {A} (m : stE S E A) s : bind m ret s = m s.
Proof. unfold bind, ret. destruct (m s) as [[] ?]; reflexivity. Qed.

Lemma bind_assoc {A B C} (m : stE S E A) (k : A -> stE S E B)
  (h : B -> stE S E C) s :
  bind (bind m k) h s = bind m (fun a => bind (k a) h) s.
Proof. unfold bind. destruct (m s) as [[] ?]; reflexivity. Qed.

Lemma bind_raise {A B} (e : E) (k : A -> stE S E B) s :
  bind (raise e) k s = (Err e, s).
Proof. reflexivity. Qed.

(** A step that returns [a] in state [s'] passes them to the continuation. *)
Lemma bind_step_ok {A B} (m : stE S E A) (k : A -> stE S E B) s a s' :
  m s = (Ok a, s') -> bind m k s = k a s'.
Proof. intros H. unfold bind. rewrite H. reflexivity. Qed.

Lemma bind_lift_ok {A B} (a : A) (k : A -> stE S E B) s : bind (lift (Ok a)) k s = k a s.
Proof. reflexivity. Qed.

(** Binds respect pointwise equality of continuations. *)
Lemma bind_ext {A B} (m : stE S E A) (k k' : A -> stE S E B) s :
  (forall a s', k a s' = k' a s') -> bind m k s = bind m k' s.
Proof. intros H. unfold bind. destruct (m s) as [[] ?]; auto. Qed.

Lemma for_each_app {X} (l1 l2 : list X) (body : X -> stE S E unit) s :
  for_each (l1 ++ l2) body s = bind (for_each l1 body) (fun _ => for_each l2 body) s.
Proof.
  revert s. induction l1 as [|x l1 IH]; intros s; simpl.
  - reflexivity.
  - rewrite bind_assoc. apply bind_ext. intros [] s'. apply IH.
Qed.
End MonadLaws.

#[export] Hint Rewrite @bind_ret_l @bind_assoc @bind_raise @bind_lift_ok : se_rw.

(** ** Equivalence of computations

    Two computations are equivalent when they agree on every state: the
    setoid in which programs over different but agreeing environments are
    compared.  The combinators respect it. *)
Section Equiv.
Context {S E : Type}.

Definition stE_eq {A} (m1 m2 : stE S E A) : Prop := forall s, m1 s = m2 s.

#[export] Instance stE_eq_Equivalence {A} : Equivalence (@stE_eq A).
Proof.
  split.
  - intros m s. reflexivity.
  - intros m1 m2 H s. symmetry. apply H.
  - intros m1 m2 m3 H1 H2 s. rewrite H1. apply H2.
Qed.

#[export] Instance bind_proper {A B} :
  Proper (stE_eq ==> pointwise_relation A stE_eq ==> stE_eq) (@bind S E A B).
Proof. intros m1 m2 Hm k1 k2 Hk s. unfold bind. rewrite Hm. destruct (m2 s) as [[] ?]; [apply Hk|reflexivity]. Qed.

#[export] Instance try_finally_proper {A} :
  Proper (stE_eq ==> stE_eq ==> stE_eq) (@try_finally S E A).
Proof. intros m1 m2 Hm f1 f2 Hf s. unfold try_finally. rewrite Hm. destruct (m2 s). rewrite Hf. reflexivity. Qed.

#[export] Instance for_each_proper {X} :
  Proper (eq ==> pointwise_relation X stE_eq ==> stE_eq) (@for_each S E X).
Proof.
  intros l _ <- f1 f2 Hf. induction l as [|x l IH]; simpl; [reflexivity|].
  apply bind_proper; [apply Hf|intros ?; exact IH].
Qed.
End Equiv.

(** Close a goal [stE_eq m1 m2] between two programs of the same shape,
    with [prim] for the steps where they differ. *)
Ltac stE_congr prim :=
  repeat first
    [ reflexivity
    | prim
    | match goal with |- stE_eq (if ?b then _ else _) _ => destruct b end
    | apply bind_proper; [|intros ?]
    | apply try_finally_proper
    | apply for_each_proper; [reflexivity|intros ?] ].

(** ** Invariants of monadic code

    [preserves P m]: from a state satisfying [P], [m] ends (normally or by an
    exception) in a state satisfying [P]. *)
Section Invariants.
Context {S E : Type} (P : S -> Prop).

Definition preserves {A} (m : stE S E A) : Prop :=
  forall s, P s -> P (snd (m s)).

Lemma preserves_ret {A} (a : A) : preserves (ret a).
Proof. intros s H. exact H. Qed.

Lemma preserves_raise {A} (e : E) : preserves (@raise S E A e).
Proof. intros s H. exact H. Qed.

Lemma preserves_lift {A} (r : res E A) : preserves (lift r).
Proof. intros s H. exact H. Qed.

Lemma preserves_bind {A B} (m : stE S E A) (k : A -> stE S E B) :
  preserves m -> (forall a, preserves (k a)) -> preserves (bind m k).
Proof.
  intros Hm Hk s Hs. unfold bind. specialize (Hm s Hs).
  destruct (m s) as [[a|e] s']; simpl in *; auto. apply Hk; exact Hm.
Qed.

Lemma preserves_for_each {X} (l : list X) (body : X -> stE S E unit) :
  (forall x, In x l -> preserves (body x)) -> preserves (for_each l body).
Proof.
  induction l as [|x l IH]; intros H; simpl.
  - apply preserves_ret.
  - apply preserves_bind; [apply H; now left|].
    intros _. apply IH. intros y Hy. apply H. now right.
Qed.

Lemma preserves_try_finally {A} (m : stE S E A) (fin : stE S E unit) :
  preserves m -> preserves fin -> preserves (try_finally m fin).
Proof.
  intros Hm Hf s Hs. unfold try_finally. specialize (Hm s Hs).
  destruct (m s) as [r s']. simpl in Hm. specialize (Hf s' Hm).
  destruct (fin s') as [[]] ; exact Hf.
Qed.
End Invariants.

Section InvariantsLift.
Context {S E : Type} (P : S -> Prop).

(** A bind on a pure step may use the value the step returned. *)
Lemma preserves_bind_lift {A B} (r : res E A) (k : A -> stE S E B) :
  (forall a, r = Ok a -> preserves P (k a)) -> preserves P (bind (lift r) k).
Proof.
  intros Hk s Hs. unfold bind, lift. destruct r as [a|e]; [apply (Hk a eq_refl); exact Hs|exact Hs].
Qed.

Lemma preserves_modify (f : S -> S) :
  (forall s, P s -> P (f s)) -> preserves P (@modify S E f).
Proof. intros Hf s Hs. apply Hf, Hs. Qed.
End InvariantsLift.

#[export] Hint Resolve preserves_ret preserves_raise preserves_lift
  preserves_bind preserves_try_finally : se.

(** Walks a chain of binds, keeping the values of pure steps. *)
Ltac preserves_chain :=
  repeat first
    [ apply preserves_bind_lift; let a := fresh "a" in let Ha := fresh "Ha" in intros a Ha
    | apply preserves_bind; [|intros ?]
    | apply preserves_ret
    | apply preserves_lift
    | apply preserves_raise ].

(** ** Costs

    [bounded mu k m]: running [m] raises the measure [mu] of the state by
    at most [k], whether [m] returns or raises.  With [mu] a count of
    events of the trace, this bounds the effects a loop performs. *)
Section Cost.
Context {S E : Type}.
Variable mu : S -> nat.

Definition bounded {A} (k : nat) (m : stE S E A) : Prop := forall s, mu (snd (m s)) <= mu s + k.

Lemma bounded_weaken {A} (m : stE S E A) k k' : bounded k m -> k <= k' -> bounded k' m.
Proof. intros H Hk s. specialize (H s). lia. Qed.

Lemma bounded_ret {A} (a : A) k : bounded k (ret a).
Proof. intros s. simpl. lia. Qed.

Lemma bounded_bind_lift {A B} (r : res E A) (k : A -> stE S E B) n :
  (forall a, bounded n (k a)) -> bounded n (bind (lift r) k).
Proof. intros H s. destruct r as [a|e]; [apply H|simpl; lia]. Qed.

Lemma bounded_bind {A B} (m : stE S E A) (k : A -> stE S E B) n1 n2 n :
  bounded n1 m -> (forall a, bounded n2 (k a)) -> n1 + n2 <= n -> bounded n (bind m k).
Proof.
  intros Hm Hk Hn s. specialize (Hm s). unfold bind.
  destruct (m s) as [[a|e] s']; simpl in *; [specialize (Hk a s')|]; lia.
Qed.

Lemma bounded_for_each {X} (l : list X) (f : X -> stE S E unit) n :
  (forall x, In x l -> bounded n (f x)) -> bounded (length l * n) (for_each l f).
Proof.
  induction l as [|x l IH]; intros H; simpl; [apply bounded_ret|].
  apply (bounded_bind _ _ n (length l * n)); [apply H; left; reflexivity| |lia].
  intros _. apply IH. intros y Hy. apply H. right. exact Hy.
Qed.

Lemma bounded_try_finally {A} (m : stE S E A) (fin : stE S E unit) n1 n2 :
  bounded n1 m -> bounded n2 fin -> bounded (n1 + n2) (try_finally m fin).
Proof.
  intros Hm Hf s. specialize (Hm s). unfold try_finally.
  destruct (m s) as [r s']. specialize (Hf s'). destruct (fin s') as [[] s'']; simpl in *; lia.
Qed.
End Cost.

(** ** The exceptions a computation can raise

    [raises_only ok m]: every exception [m] raises satisfies [ok]. *)
Section Raises.
Context {S E : Type}.
Variable ok : E -> Prop.

Definition raises_only {A} (m : stE S E A) : Prop :=
  forall s e s', m s = (Err e, s') -> ok e.

Lemma raises_only_ret {A} (a : A) : raises_only (ret a).
Proof. intros s e s' H. discriminate H. Qed.

Lemma raises_only_modify f : raises_only (modify f).
Proof. intros s e s' H. discriminate H. Qed.

Lemma raises_only_lift {A} (r : res E A) : (forall e, r = Err e -> ok e) -> raises_only (lift r).
Proof. intros H s e s' Hm. injection Hm as Hr _. apply H. exact Hr. Qed.

Lemma raises_only_bind {A B} (m : stE S E A) (k : A -> stE S E B) :
  raises_only m -> (forall a, raises_only (k a)) -> raises_only (bind m k).
Proof.
  intros Hm Hk s e s'. unfold bind. destruct (m s) as [[a|e'] s1] eqn:Hs.
  - apply Hk.
  - intros H. injection H as -> _. exact (Hm _ _ _ Hs).
Qed.

Lemma raises_only_for_each {X} (l : list X) (f : X -> stE S E unit) :
  (forall x, raises_only (f x)) -> raises_only (for_each l f).
Proof.
  intros H. induction l as [|x l IH]; simpl; [apply raises_only_ret|].
  apply raises_only_bind; [apply H|intros _; exact IH].
Qed.

Lemma raises_only_try_finally {A} (m : stE S E A) (fin : stE S E unit) :
  raises_only m -> raises_only fin -> raises_only (try_finally m fin).
Proof.
  intros Hm Hf s e s'. unfold try_finally. destruct (m s) as [r s1] eqn:Hs.
  destruct (fin s1) as [[u|e'] s2] eqn:Hfin; intros H; injection H as -> _.
  - exact (Hm _ _ _ Hs).
  - exact (Hf _ _ _ Hfin).
Qed.
End Raises.

(** Decompose a [raises_only] goal along the structure of a program, with
    [prim] for its primitive steps. *)
Ltac raises_chain prim :=
  repeat first
    [ prim
    | apply raises_only_ret
    | apply raises_only_modify
    | match goal with |- raises_only _ (if ?b then _ else _) => destruct b end
    | apply raises_only_bind; [|intros ?]
    | apply raises_only_for_each; intros ?
    | apply raises_only_try_finally ].

(** ** Hoare triples

    [triple P m Q QE]: from a state satisfying [P], [m] either returns [a]
    in a state satisfying [Q a], or raises [e] in a state satisfying
    [QE e]. *)
Definition triple {S E A} (P : S -> Prop) (m : stE S E A) (Q : A -> S -> Prop)
  (QE : E -> S -> Prop) : Prop :=
  forall s, P s -> match m s with
                   | (Ok a, s') => Q a s'
                   | (Err e, s') => QE e s'
                   end.

Section Triples.
Context {S E : Type}.

Lemma triple_ret {A} (a : A) (Q : A -> S -> Prop) (QE : E -> S -> Prop) :
  triple (Q a) (ret a) Q QE.
Proof. intros s H. exact H. Qed.

Lemma triple_raise {A} (e : E) (Q : A -> S -> Prop) (QE : E -> S -> Prop) :
  triple (QE e) (raise e) Q QE.
Proof. intros s H. exact H. Qed.

(** A pure step keeps the state: its precondition must survive an
    exception. *)
Lemma triple_lift_keep {A} (P : S -> Prop) (r : res E A) (QE : E -> S -> Prop) :
  (forall e s, P s -> QE e s) -> triple P (lift r) (fun _ => P) QE.
Proof. intros H s Hs. unfold lift. destruct r; auto. Qed.

Lemma triple_bind {A B} P (m : stE S E A) Q (k : A -> stE S E B) R QE :
  triple P m Q QE -> (forall a, triple (Q a) (k a) R QE) -> triple P (bind m k) R QE.
Proof.
  intros Hm Hk s Hs. unfold bind. specialize (Hm s Hs).
  destruct (m s) as [[a|e] s']; [apply Hk|]; exact Hm.
Qed.

(** A pure step, with the equation of its outcome. *)
Lemma triple_bind_lift {A B} P (r : res E A) (k : A -> stE S E B) Q QE :
  (forall e, r = Err e -> forall s, P s -> QE e s) -> (forall a, r = Ok a -> triple P (k a) Q QE) ->
  triple P (bind (lift r) k) Q QE.
Proof. intros He Hk s Hs. destruct r as [a|e]; [exact (Hk a eq_refl s Hs)|exact (He e eq_refl s Hs)]. Qed.

Lemma triple_weaken {A} (P P' : S -> Prop) (m : stE S E A) Q Q' QE QE' :
  (forall s, P' s -> P s) -> (forall a s, Q a s -> Q' a s) -> (forall e s, QE e s -> QE' e s) ->
  triple P m Q QE -> triple P' m Q' QE'.
Proof.
  intros HP HQ HE Hm s Hs. specialize (Hm s (HP s Hs)).
  destruct (m s) as [[a|e] s']; auto.
Qed.

Lemma triple_for_each {X} (I : S -> Prop) (l : list X) (body : X -> stE S E unit) QE :
  (forall x, In x l -> triple I (body x) (fun _ => I) QE) ->
  triple I (for_each l body) (fun _ => I) QE.
Proof.
  induction l as [|x l IH]; intros H; [intros s Hs; exact Hs|]. simpl.
  apply triple_bind with (Q := fun _ => I); [apply H; now left|].
  intros _. apply IH. intros y Hy. apply H. now right.
Qed.

(** [try m finally fin]: [fin] runs from the state [m] ends in, normal or
    exceptional, and decides the final state. *)
Lemma triple_try_finally {A} P (m : stE S E A) Q QE (fin : stE S E unit) (R : S -> Prop) :
  triple P m Q QE ->
  triple (fun s => (exists a, Q a s) \/ (exists e, QE e s)) fin (fun _ => R) (fun _ => R) ->
  triple P (try_finally m fin) (fun _ => R) (fun _ => R).
Proof.
  intros Hm Hf s Hs. unfold try_finally. specialize (Hm s Hs).
  destruct (m s) as [r s']. assert (Hpre : (exists a, Q a s') \/ (exists e, QE e s'))
    by (destruct r; eauto).
  specialize (Hf s' Hpre). destruct (fin s') as [[] s'']; destruct r; exact Hf.
Qed.

(** A [finally] clause that cannot raise passes on the outcome of the
    body. *)
Lemma triple_try_finally_keep {A} P (m : stE S E A) Q QE (fin : stE S E unit) Q' QE' :
  triple P m Q QE ->
  (forall a, triple (Q a) fin (fun _ => Q' a) (fun _ _ => False)) ->
  (forall e, triple (QE e) fin (fun _ => QE' e) (fun _ _ => False)) ->
  triple P (try_finally m fin) Q' QE'.
Proof.
  intros Hm HQ HE s Hs. unfold try_finally. specialize (Hm s Hs).
  destruct (m s) as [[a|e] s'];
    [specialize (HQ a s' Hm)|specialize (HE e s' Hm)]; destruct (fin s') as [[] s'']; tauto.
Qed.
End Triples.

(** ** Trace extensions

    [extends obs P m]: running [m] only appends to the observation
    [obs s], and what it appends satisfies [P], whatever the outcome. *)
Section Extends.
Context {S E O : Type} (obs : S -> list O) (P : list O -> Prop).
Hypothesis P_nil : P [].
Hypothesis P_app : forall a b, P a -> P b -> P (a ++ b).

Definition extends {A} (m : stE S E A) : Prop :=
  forall s, exists ext, obs (snd (m s)) = obs s ++ ext /\ P ext.

Lemma extends_ret {A} (a : A) : extends (ret a).
Proof. intros s. exists []. rewrite app_nil_r. auto. Qed.

Lemma extends_raise {A} (e : E) : extends (@raise S E A e).
Proof. intros s. exists []. rewrite app_nil_r. auto. Qed.

Lemma extends_lift {A} (r : res E A) : extends (lift r).
Proof. intros s. exists []. rewrite app_nil_r. auto. Qed.

Lemma extends_bind {A B} (m : stE S E A) (k : A -> stE S E B) :
  extends m -> (forall a, extends (k a)) -> extends (bind m k).
Proof.
  intros Hm Hk s. unfold bind. destruct (Hm s) as [e1 [H1 P1]].
  destruct (m s) as [[a|e] s']; simpl in *; [|eauto].
  destruct (Hk a s') as [e2 [H2 P2]]. exists (e1 ++ e2). rewrite H2, H1, app_assoc. auto.
Qed.

Lemma extends_for_each {X} (l : list X) (body : X -> stE S E unit) :
  (forall x, extends (body x)) -> extends (for_each l body).
Proof.
  intros H. induction l as [|x l IH]; simpl; [apply extends_ret|].
  apply extends_bind; auto.
Qed.
End Extends.

#[export] Hint Resolve extends_ret extends_raise extends_lift extends_bind extends_for_each : se.

(** ** Strings *)

Open Scope string_scope.

Section Strings.
Lemma append_nil_r (s : string) : s ++ "" = s.
Proof. induction s as [|c s IH]; simpl; congruence. Qed.

Lemma append_assoc (a b c : string) : (a ++ b) ++ c = a ++ (b ++ c).
Proof. induction a as [|x a IH]; simpl; congruence. Qed.

Lemma list_ascii_of_string_app (a b : string) :
  list_ascii_of_string (a ++ b) = (list_ascii_of_string a ++ list_ascii_of_string b)%list.
Proof. induction a as [|x a IH]; simpl; congruence. Qed.

(** [c] occurs in [s]. *)
Fixpoint has_char (c : ascii) (s : string) : bool :=
  match s with
  | EmptyString => false
  | String d s' => (Ascii.eqb c d || has_char c s')%bool
  end.

Lemma has_char_app c a b : has_char c (a ++ b) = (has_char c a || has_char c b)%bool.
Proof. induction a as [|x a IH]; simpl; [reflexivity|]. rewrite IH, orb_assoc. reflexivity. Qed.

(** Every character of [s] satisfies [p]. *)
Fixpoint all_chars (p : ascii -> bool) (s : string) : bool :=
  match s with
  | EmptyString => true
  | String c s' => (p c && all_chars p s')%bool
  end.

Lemma all_chars_app p a b : all_chars p (a ++ b) = (all_chars p a && all_chars p b)%bool.
Proof. induction a as [|x a IH]; simpl; [reflexivity|]. rewrite IH, andb_assoc. reflexivity. Qed.

Lemma all_chars_impl (p q : ascii -> bool) s :
  (forall c, p c = true -> q c = true) -> all_chars p s = true -> all_chars q s = true.
Proof.
  intros Hpq. induction s as [|c s IH]; simpl; [reflexivity|].
  rewrite !andb_true_iff. intros [Hc Hs]. auto.
Qed.

Lemma length_append (s t : string) : String.length (s ++ t) = String.length s + String.length t.
Proof. induction s as [|c s IH]; simpl; [reflexivity|]. rewrite IH. reflexivity. Qed.

Lemma append_cancel_l (p a b : string) : p ++ a = p ++ b -> a = b.
Proof. induction p as [|c p IH]; simpl; [auto|]. intros H. injection H. exact IH. Qed.

(** Two strings free of a separator character [c], each followed by [c],
    split the same way. *)
Lemma split_at_char (p : ascii -> bool) (c : ascii) (x y r1 r2 : string) :
  p c = false -> all_chars p x = true -> all_chars p y = true ->
  x ++ String c r1 = y ++ String c r2 -> x = y /\ r1 = r2.
Proof.
  intros Hc. revert y. induction x as [|a x IH]; intros y Hx Hy H; destruct y as [|b y]; simpl in *.
  - injection H. auto.
  - injection H as <- _. apply andb_true_iff in Hy as [Hb _]. congruence.
  - injection H as -> _. apply andb_true_iff in Hx as [Ha _]. congruence.
  - apply andb_true_iff in Hx as [_ Hx]. apply andb_true_iff in Hy as [_ Hy].
    injection H as <- H. destruct (IH y Hx Hy H) as [-> ->]. auto.
Qed.

(** A character outside the class [p] does not occur in a string of [p]s. *)
Lemma all_chars_has_char p c s :
  all_chars p s = true -> p c = false -> has_char c s = false.
Proof.
  induction s as [|d s IH]; simpl; [reflexivity|].
  intros [Hd Hs]%andb_true_iff Hc. rewrite IH by assumption.
  destruct (Ascii.eqb_spec c d); [congruence|reflexivity].
Qed.

Fixpoint last_char (s : string) : option ascii :=
  match s with
  | EmptyString => None
  | String c EmptyString => Some c
  | String _ s' => last_char s'
  end.

Lemma last_char_cons c s :
  last_char (String c s) = match last_char s with Some d => Some d | None => Some c end.
Proof.
  revert c. induction s as [|a s IH]; intros c; [reflexivity|].
  change (last_char (String c (String a s))) with (last_char (String a s)).
  rewrite IH. destruct (last_char s); reflexivity.
Qed.

Lemma last_char_app a b :
  last_char (a ++ b) = match last_char b with Some d => Some d | None => last_char a end.
Proof.
  induction a as [|c a IH].
  - simpl. destruct (last_char b); reflexivity.
  - change (String c a ++ b) with (String c (a ++ b)).
    rewrite last_char_cons, IH, (last_char_cons c a). destruct (last_char b); reflexivity.
Qed.

Lemma all_chars_last p s c : all_chars p s = true -> last_char s = Some c -> p c = true.
Proof.
  induction s as [|d s IH]; [discriminate|].
  rewrite last_char_cons. simpl. rewrite andb_true_iff. intros [Hd Hs].
  destruct (last_char s); [intros [= <-]; auto | intros [= <-]; exact Hd].
Qed.

(** [s.split(c)]. *)
Fixpoint split_on (c : ascii) (s : string) : list string :=
  match s with
  | EmptyString => [EmptyString]
  | String d s' =>
      if Ascii.eqb c d then EmptyString :: split_on c s'
      else match split_on c s' with
           | [] => [String d EmptyString]
           | x :: xs => String d x :: xs
           end
  end.

Lemma split_on_free c a : has_char c a = false -> split_on c a = [a].
Proof.
  induction a as [|d a IH]; [reflexivity|]. simpl. intros [Hd Ha]%orb_false_iff.
  rewrite Hd, IH by exact Ha. reflexivity.
Qed.

(** Splitting at a separator [c] after a piece without [c]. *)
Lemma split_on_sep c a b : has_char c a = false -> split_on c (a ++ String c b) = a :: split_on c b.
Proof.
  induction a as [|d a IH]; simpl.
  - rewrite Ascii.eqb_refl. reflexivity.
  - intros [Hd Ha]%orb_false_iff. rewrite Hd, IH by exact Ha. reflexivity.
Qed.

(** [s] without the prefix [p], if it starts with [p]. *)
Fixpoint strip_prefix (p s : string) : option string :=
  match p, s with
  | EmptyString, _ => Some s
  | String c p', String d s' => if Ascii.eqb c d then strip_prefix p' s' else None
  | String _ _, EmptyString => None
  end.

Lemma strip_prefix_app p s : strip_prefix p (p ++ s) = Some s.
Proof. induction p as [|c p IH]; simpl; [reflexivity|]. rewrite Ascii.eqb_refl. exact IH. Qed.

(** [s.partition(c)] without the separator: what comes before the first
    [c], and what comes after it. *)
Fixpoint break_at (c : ascii) (s : string) : string * string :=
  match s with
  | EmptyString => (EmptyString, EmptyString)
  | String d s' => if Ascii.eqb c d then (EmptyString, s')
                   else let '(x, y) := break_at c s' in (String d x, y)
  end.

Lemma break_at_sep c a b : has_char c a = false -> break_at c (a ++ String c b) = (a, b).
Proof.
  induction a as [|d a IH]; simpl.
  - rewrite Ascii.eqb_refl. reflexivity.
  - intros [Hd Ha]%orb_false_iff. rewrite Hd, IH by exact Ha. reflexivity.
Qed.

Lemma has_char_In c s : has_char c s = true <-> In c (list_ascii_of_string s).
Proof.
  induction s as [|d s IH]; simpl; [split; [discriminate|tauto]|].
  rewrite orb_true_iff, IH, Ascii.eqb_eq. intuition congruence.
Qed.
End Strings.

#[export] Hint Rewrite append_nil_r append_assoc list_ascii_of_string_app has_char_app all_chars_app : strings.

(** ** Lists and options *)

Lemma find_app {A} (p : A -> bool) (l1 l2 : list A) :
  find p (l1 ++ l2) = match find p l1 with
                      | Some x => Some x
                      | None => find p l2
                      end.
Proof. induction l1 as [|x l1 IH]; simpl; [reflexivity|]. destruct (p x); auto. Qed.

Lemma find_flat_map {A B} (p : B -> bool) (f : A -> list B) (l : list A) :
  find p (flat_map f l) =
  (fix go (l : list A) : option B :=
     match l with
     | [] => None
     | x :: l' => match find p (f x) with Some y => Some y | None => go l' end
     end) l.
Proof. induction l as [|x l IH]; simpl; [reflexivity|]. rewrite find_app, IH. reflexivity. Qed.

(** ** Tactics *)

(** Case analysis on the match a monadic step is stuck on. *)
Ltac step_match :=
  match goal with
  | |- context [match ?x with _ => _ end] => destruct x eqn:?
  end.
