(* ===== verification/PyValue.v ===== *)
(** * Python values and the operations the script applies to them

    The script handles the decoded body of the precinct-list response as
    untyped Python data: it iterates over it ([for precinct in
    precinct_json]), subscripts its elements ([precinct['Description']]),
    compares one field with a string ([==]), formats two fields with [%d]
    into the detail URL and lets [csv.writer] apply [str()] to the others.
    This file models the values [response.json()] produces (floats
    included, with [inf] and [nan]), what [.json()] raises on a body it
    cannot decode, and those five operations, each with the exception
    Python raises on the values it rejects.  The [str()] of a float is
    CPython's shortest round-trip [repr]. *)

From Stdlib Require Import String Ascii List ZArith Bool Lia.
From Stdlib Require Import DecimalString DecimalPos DecimalZ Decimal.
From Stdlib Require Import Floats.SpecFloat.
From S2P Require Import Prelude.
Import ListNotations.
Open Scope string_scope.

Set Warnings "-register-all".

Module Py.

(** ** Values *)

(** What [json.loads] builds: [None], booleans, integers, floats (binary64,
    as [SpecFloat.spec_float]: [NaN] and [Infinity] decode to [nan] and
    [inf], [1e400] to [inf]), strings, lists and dicts with string keys.  A
    dict is the list of the JSON object's members in the order written; a
    key written twice keeps its first position and its last value
    ([dict_get], [dict_keys]), as [dict(pairs)] does. *)
Inductive pyval : Type :=
| PNone
| PBool (b : bool)
| PInt (z : Z)
| PFloat (f : spec_float)
| PStr (s : string)
| PList (l : list pyval)
| PDict (kvs : list (string * pyval)).

(** ** Exceptions *)

Inductive type_error : Type :=
| NotSubscriptable   (** ['int' object is not subscriptable] *)
| StrIndices         (** [string indices must be integers] *)
| ListIndices        (** [list indices must be integers or slices, not str] *)
| NotIterable        (** ['int' object is not iterable] *)
| FormatNumber.      (** [%d format: a real number is required] *)

Inductive value_error : Type :=
| FloatNaNToInt      (** [cannot convert float NaN to integer] *)
| IntMaxStrDigits.   (** [Exceeds the limit (4300 digits) for integer string conversion] *)

(** The exceptions that can end the script. *)
Inductive exn : Type :=
| KeyError (k : string)
| TypeError (t : type_error)
| ValueError (v : value_error)
| OverflowError                   (** [cannot convert float infinity to integer] *)
| RecursionError                  (** [maximum recursion depth exceeded] *)
| AttributeError (attr : string)  (** ['NoneType' object has no attribute attr] *)
| ConnectionError                 (** [requests.exceptions.RequestException] *)
| JSONDecodeError                 (** [requests.exceptions.JSONDecodeError] *)
| ParserRejectedMarkup            (** [bs4.exceptions.ParserRejectedMarkup] *)
| OSError.                        (** [open()] failed *)

(** ** Decoding, [response.json()] *)

(** What [json.loads] makes of a body: a value, or the failure it raises. *)
Inductive json_body : Type :=
| Decoded (v : pyval)
| NotJSON           (** not a JSON text *)
| IntTooLong        (** an integer literal of more than 4300 digits *)
| NestedTooDeep.    (** arrays or objects nested beyond the recursion limit *)

(** [.json()]: [requests] turns the decoder's [JSONDecodeError] into its
    own [JSONDecodeError] and lets every other exception through. *)
Definition json_result (b : json_body) : res exn pyval :=
  match b with
  | Decoded v => Ok v
  | NotJSON => Err JSONDecodeError
  | IntTooLong => Err (ValueError IntMaxStrDigits)
  | NestedTooDeep => Err RecursionError
  end.

(** ** Subscription [v[k]] with a string key *)

(** The value of key [k]: its last binding. *)
Fixpoint dict_get {A} (k : string) (kvs : list (string * A)) : option A :=
  match kvs with
  | [] => None
  | (k', v) :: kvs' => match dict_get k kvs' with
                       | Some x => Some x
                       | None => if String.eqb k k' then Some v else None
                       end
  end.

(** The keys in insertion order, each once, at its first position. *)
Fixpoint dict_keys_from {A} (seen : list string) (kvs : list (string * A)) : list string :=
  match kvs with
  | [] => []
  | (k, _) :: kvs' =>
      if existsb (String.eqb k) seen then dict_keys_from seen kvs'
      else k :: dict_keys_from (k :: seen) kvs'
  end.

Definition dict_keys {A} (kvs : list (string * A)) : list string := dict_keys_from [] kvs.

(** The items of the dict, [d.items()]. *)
Definition dict_items {A} (kvs : list (string * A)) : list (string * A) :=
  flat_map (fun k => match dict_get k kvs with Some v => [(k, v)] | None => [] end) (dict_keys kvs).

Definition getitem (v : pyval) (k : string) : res exn pyval :=
  match v with
  | PDict kvs => match dict_get k kvs with
                 | Some x => Ok x
                 | None => Err (KeyError k)
                 end
  | PStr _ => Err (TypeError StrIndices)
  | PList _ => Err (TypeError ListIndices)
  | PNone | PBool _ | PInt _ | PFloat _ => Err (TypeError NotSubscriptable)
  end.

(** ** Iteration [for x in v] *)

Fixpoint str_chars (s : string) : list pyval :=
  match s with
  | EmptyString => []
  | String c s' => PStr (String c EmptyString) :: str_chars s'
  end.

Definition py_iter (v : pyval) : res exn (list pyval) :=
  match v with
  | PList l => Ok l
  | PDict kvs => Ok (map PStr (dict_keys kvs))
  | PStr s => Ok (str_chars s)
  | PNone | PBool _ | PInt _ | PFloat _ => Err (TypeError NotIterable)
  end.

(** ** Equality with a string literal, [v == "..."] *)

Definition py_eq_str (v : pyval) (s : string) : bool :=
  match v with
  | PStr t => String.eqb t s
  | _ => false
  end.

(** ** Integers as text: [str(n)] and ['%d' % n] *)

Definition int_str (z : Z) : string := NilZero.string_of_int (Z.to_int z).

(** [int(f)] of a float: the value truncated toward zero; [inf] and [nan]
    have none.  A finite float is [m * 2^e]. *)
Definition float_trunc (f : spec_float) : res exn Z :=
  match f with
  | S754_zero _ => Ok 0%Z
  | S754_infinity _ => Err OverflowError
  | S754_nan => Err (ValueError FloatNaNToInt)
  | S754_finite s m e => Ok ((if s then Z.opp else id) (Z.shiftl (Zpos m) e))
  end.

(** The integer ['%d' % v] formats: [v] itself for an integer or a bool (a
    subclass of int), [int(v)] for a float; anything else is a
    [TypeError]. *)
Definition d_int (v : pyval) : res exn Z :=
  match v with
  | PInt z => Ok z
  | PBool b => Ok (if b then 1 else 0)%Z
  | PFloat f => float_trunc f
  | _ => Err (TypeError FormatNumber)
  end.

(** ['%d' % v]. *)
Definition fmt_d (v : pyval) : res exn string :=
  z <-? d_int v ;; Ok (int_str z).

(** ** [repr()] and [str()] *)

Definition hex_digit (n : nat) : ascii :=
  if Nat.ltb n 10 then ascii_of_nat (48 + n) else ascii_of_nat (87 + n).

(** ["\xNN"], lowercase. *)
Definition hex_escape (c : ascii) : string :=
  let n := nat_of_ascii c in
  String "\" (String "x" (String (hex_digit (n / 16)) (String (hex_digit (n mod 16)) EmptyString))).

(** [str.isprintable()] on the Latin-1 range: controls, DEL, the C1
    controls, NO-BREAK SPACE and SOFT HYPHEN are not printable. *)
Definition printable (c : ascii) : bool :=
  let n := nat_of_ascii c in
  negb ((n <? 32) || (n =? 127) || ((128 <=? n) && (n <=? 160)) || (n =? 173))%nat.

(** One character of [repr(s)] between the quotes [q]. *)
Definition repr_char (q c : ascii) : string :=
  if Ascii.eqb c q || Ascii.eqb c "\" then String "\" (String c EmptyString)
  else if Ascii.eqb c "009" then "\t"
  else if Ascii.eqb c "010" then "\n"
  else if Ascii.eqb c "013" then "\r"
  else if printable c then String c EmptyString
  else hex_escape c.

Fixpoint repr_body (q : ascii) (s : string) : string :=
  match s with
  | EmptyString => EmptyString
  | String c s' => repr_char q c ++ repr_body q s'
  end.

(** [repr(s)]: single quotes unless [s] has a single quote and no double
    quote. *)
Definition str_repr (s : string) : string :=
  let q := if has_char "'" s && negb (has_char "034" s) then "034"%char else "'"%char in
  String q (repr_body q s ++ String q EmptyString).

(** *** Floats *)

Local Open Scope Z_scope.

(** [a * 10^q] compared with [b * 2^e], exactly. *)
Definition cmp_dec_bin (a q b e : Z) : comparison :=
  Z.compare (a * 10 ^ Z.max q 0 * 2 ^ Z.max (- e) 0) (b * 2 ^ Z.max e 0 * 10 ^ Z.max (- q) 0).

(** The number of decimal digits of a positive integer. *)
Definition ndigits (z : Z) : Z := Z.of_nat (String.length (int_str z)).

(** The decimal exponent of [m * 2^e]: the [n] with
    [10^(n-1) <= m * 2^e < 10^n] (dtoa's [decpt]). *)
Definition decpt (m : positive) (e : Z) : Z :=
  let a := ndigits (Zpos m * 2 ^ Z.max e 0) in
  let b := ndigits (2 ^ Z.max (- e) 0) in
  match cmp_dec_bin 1 (a - b) (Zpos m) e with
  | Gt => a - b
  | _ => a - b + 1
  end.

(** [d * 10^q] reads back as the binary64 float [m * 2^e] (under
    round-half-even): it lies strictly within half a unit in the last place
    of it, or on the boundary when [m] is even.  Below a power of two the
    float below is twice as close ([delta]). *)
Definition in_interval (m : positive) (e d q : Z) : bool :=
  let delta := if (Zpos m =? 2 ^ 52) && (-1074 <? e) then 1 else 2 in
  match cmp_dec_bin (4 * d) q (4 * Zpos m - delta) e, cmp_dec_bin (4 * d) q (4 * Zpos m + 2) e with
  | Gt, Lt => true
  | Eq, Lt | Gt, Eq => Z.even (Zpos m)
  | _, _ => false
  end.

(** The integer [t] with [t * 10^s <= m * 2^e < (t + 1) * 10^s]. *)
Definition digits_at (m : positive) (e s : Z) : Z :=
  (Zpos m * 2 ^ Z.max e 0 * 10 ^ Z.max (- s) 0) / (2 ^ Z.max (- e) 0 * 10 ^ Z.max s 0).

(** The decimal with its last digit at [10^s] that reads back as
    [m * 2^e], if one does: of the two around it, the one that reads back,
    the nearer if both do, the even one on a tie. *)
Definition pick (m : positive) (e s : Z) : option Z :=
  let t := digits_at m e s in
  let lo := in_interval m e t s in
  let hi := in_interval m e (t + 1) s in
  if lo && hi then
    match cmp_dec_bin (2 * t + 1) s (2 * Zpos m) e with
    | Gt => Some t
    | Lt => Some (t + 1)
    | Eq => Some (if Z.even t then t else t + 1)
    end
  else if lo then Some t else if hi then Some (t + 1) else None.

(** dtoa mode 0: the shortest decimal that reads back, trying [k]
    significant digits for [k = 1, 2, ...]; 17 digits always suffice for a
    binary64 float, so [fuel = 17] never runs out. *)
Fixpoint shortest (m : positive) (e n : Z) (k : nat) (fuel : nat) : Z * Z :=
  match fuel with
  | O => (digits_at m e (n - Z.of_nat k), n - Z.of_nat k)
  | S fuel' => match pick m e (n - Z.of_nat k) with
               | Some d => (d, n - Z.of_nat k)
               | None => shortest m e n (S k) fuel'
               end
  end.

(** The digits without their trailing zeros. *)
Fixpoint strip_zeros (s : string) : string :=
  match s with
  | EmptyString => EmptyString
  | String c s' =>
      let r := strip_zeros s' in
      if Ascii.eqb c "0" && String.eqb r "" then EmptyString else String c r
  end.

Fixpoint zeros (n : nat) : string :=
  match n with O => EmptyString | S n' => String "0" (zeros n') end.

(** The exponent of the [e] notation: a sign and at least two digits. *)
Definition exp_str (x : Z) : string :=
  (if x <? 0 then "-" else "+") ++ (if Z.abs x <? 10 then "0" else "") ++ int_str (Z.abs x).

(** [format_float_short] for [repr]: digits [ds] with decimal point at
    [p]; scientific notation when [p <= -4] or [p > 16], otherwise
    positional, with [.0] added to an integral value. *)
Definition format_short (ds : string) (p : Z) : string :=
  let L := Z.of_nat (String.length ds) in
  if (p <=? -4) || (16 <? p) then
    match ds with
    | EmptyString => "0"
    | String c rest => String c (if String.eqb rest "" then "" else "." ++ rest) ++ "e" ++ exp_str (p - 1)
    end
  else if p <=? 0 then "0." ++ zeros (Z.to_nat (- p)) ++ ds
  else if p <? L then substring 0 (Z.to_nat p) ds ++ "." ++ substring (Z.to_nat p) (Z.to_nat (L - p)) ds
  else ds ++ zeros (Z.to_nat (p - L)) ++ ".0".

(** [repr(x)] of a float, as CPython's [float_repr] computes it. *)
Definition float_repr (f : spec_float) : string :=
  match f with
  | S754_zero s => if s then "-0.0" else "0.0"
  | S754_infinity s => if s then "-inf" else "inf"
  | S754_nan => "nan"
  | S754_finite s m e =>
      let '(d, q) := shortest m e (decpt m e) 1 17 in
      let ds := int_str d in
      (if s then "-" else "") ++ format_short (strip_zeros ds) (q + Z.of_nat (String.length ds))
  end.

Local Close Scope Z_scope.

Fixpoint py_repr (v : pyval) : string :=
  match v with
  | PNone => "None"
  | PBool true => "True"
  | PBool false => "False"
  | PInt z => int_str z
  | PFloat f => float_repr f
  | PStr s => str_repr s
  | PList l => "[" ++ String.concat ", " (map py_repr l) ++ "]"
  | PDict kvs =>
      "{" ++ String.concat ", "
               (map (fun kv => let '(k, r) := kv in str_repr k ++ ": " ++ r)
                    (dict_items (map (fun kv => let '(k, x) := kv in (k, py_repr x)) kvs)))
          ++ "}"
  end.

Definition py_str (v : pyval) : string :=
  match v with
  | PStr s => s
  | _ => py_repr v
  end.

End Py.

(** ** Properties of the integer rendering *)

Module PyFacts.
Import Py.

Definition is_digit (c : ascii) : bool :=
  let n := nat_of_ascii c in ((48 <=? n) && (n <=? 57))%nat.

(** Characters [str(n)] can produce. *)
Definition is_int_char (c : ascii) : bool := is_digit c || Ascii.eqb c "-".

(** Decimal text read back as an integer (Python's [int(s)] on the output
    of [str(n)]). *)
Definition dec_int (s : string) : option Z :=
  option_map Z.of_int (NilZero.int_of_string s).

Lemma uint_str_chars (d : Decimal.uint) :
  all_chars is_digit (NilEmpty.string_of_uint d) = true.
Proof. induction d; simpl; auto. Qed.

Lemma nz_uint_str_chars (d : Decimal.uint) :
  all_chars is_digit (NilZero.string_of_uint d) = true.
Proof. destruct d; [reflexivity|..]; apply (uint_str_chars (_ _)). Qed.

Lemma int_str_chars (z : Z) : all_chars is_int_char (int_str z) = true.
Proof.
  unfold int_str. destruct (Z.to_int z) as [d|d]; simpl;
    (apply (all_chars_impl is_digit);
     [intros c Hc; unfold is_int_char; rewrite Hc; reflexivity | apply nz_uint_str_chars]).
Qed.

Lemma to_int_nonnil (z : Z) :
  Z.to_int z <> Decimal.Pos Decimal.Nil /\ Z.to_int z <> Decimal.Neg Decimal.Nil.
Proof.
  destruct z as [|p|p]; simpl; split; try discriminate;
    intros H; injection H; apply Unsigned.to_uint_nonnil.
Qed.

(** [str(n)] is injective: the decimal text determines the integer. *)
Lemma dec_int_str (z : Z) : dec_int (int_str z) = Some z.
Proof.
  unfold dec_int, int_str. destruct (to_int_nonnil z) as [H1 H2].
  rewrite NilZero.isi by assumption. simpl. rewrite DecimalZ.of_to. reflexivity.
Qed.

Lemma int_str_inj (z1 z2 : Z) : int_str z1 = int_str z2 -> z1 = z2.
Proof.
  intros H. assert (H' := dec_int_str z1). rewrite H, dec_int_str in H'. congruence.
Qed.

(** A value one key was found in is a dict: another key can only be
    missing. *)
Lemma getitem_other_key v k x k' e : getitem v k = Ok x -> getitem v k' = Err e -> e = KeyError k'.
Proof.
  destruct v; simpl; try discriminate. intros _.
  destruct (dict_get k' kvs); [discriminate|]. intros [= <-]. reflexivity.
Qed.

(** ['%d'] renders the integer [d_int] finds. *)
Lemma fmt_d_ok v s : fmt_d v = Ok s -> exists z, d_int v = Ok z /\ s = int_str z.
Proof. unfold fmt_d. destruct (d_int v) as [z|e]; simpl; [intros [= <-]; eauto|discriminate]. Qed.

(** The characters of a float's [repr] are those of the digits, the
    sign, the point, the exponent and [inf] / [nan]: a class closed under
    the pieces [float_repr] assembles. *)
Section FloatChars.
Variable p : ascii -> bool.
Hypothesis Hint : forall c, is_int_char c = true -> p c = true.
Hypothesis Hpunct : forall c, In c ["."; "e"; "+"; "i"; "n"; "f"; "a"]%char -> p c = true.

Lemma strip_zeros_chars s : all_chars p s = true -> all_chars p (strip_zeros s) = true.
Proof.
  induction s as [|c s IH]; simpl; [reflexivity|]. intros [Hc Hs]%andb_true_iff.
  destruct (Ascii.eqb c "0" && String.eqb (strip_zeros s) "")%bool; simpl; [reflexivity|].
  rewrite Hc, IH by exact Hs. reflexivity.
Qed.

Lemma zeros_chars n : all_chars p (zeros n) = true.
Proof. induction n as [|n IH]; simpl; [reflexivity|]. rewrite Hint, IH by reflexivity. reflexivity. Qed.

Lemma substring_chars s n m : all_chars p s = true -> all_chars p (substring n m s) = true.
Proof.
  revert n m. induction s as [|c s IH]; intros n m Hs; destruct n, m; simpl in *; try reflexivity.
  - apply andb_true_iff in Hs as [Hc Hs]. rewrite Hc. apply IH. exact Hs.
  - apply IH. apply andb_true_iff in Hs as [_ Hs]. exact Hs.
  - apply IH. apply andb_true_iff in Hs as [_ Hs]. exact Hs.
Qed.

Lemma int_str_p z : all_chars p (int_str z) = true.
Proof. apply (all_chars_impl is_int_char); [exact Hint|apply int_str_chars]. Qed.

Ltac chars :=
  repeat first [ progress (simpl all_chars) | rewrite all_chars_app | rewrite andb_true_iff
               | rewrite Hint by reflexivity ];
  repeat split; rewrite ?andb_true_r;
  try (apply Hpunct; simpl; tauto); auto using zeros_chars, substring_chars, int_str_p.

Lemma format_short_chars ds q : all_chars p ds = true -> all_chars p (format_short ds q) = true.
Proof.
  intros Hds. unfold format_short.
  destruct (_ || _)%bool; [|destruct (_ <=? _)%Z; [|destruct (_ <? _)%Z]]; try (chars; fail).
  destruct ds as [|c rest]; [chars|]. simpl in Hds. apply andb_true_iff in Hds as [Hc Hr].
  unfold exp_str. destruct (String.eqb rest ""), (_ <? 0)%Z, (Z.abs _ <? 10)%Z; chars.
Qed.

Lemma float_repr_chars f : all_chars p (float_repr f) = true.
Proof.
  destruct f as [[]|[]| |s m e]; try (chars; fail). unfold float_repr.
  destruct (shortest m e (decpt m e) 1 17) as [d q]. cbv beta iota zeta. rewrite all_chars_app.
  apply andb_true_iff. split; [destruct s; chars|].
  apply format_short_chars, strip_zeros_chars, int_str_p.
Qed.
End FloatChars.

(** No float's [repr] contains [<]. *)
Lemma float_repr_no_lt f : has_char "<" (float_repr f) = false.
Proof.
  apply (all_chars_has_char (fun c => negb (Ascii.eqb c "<"))); [|reflexivity].
  apply float_repr_chars.
  - intros c Hc. destruct (Ascii.eqb_spec c "<") as [->|]; [discriminate|reflexivity].
  - intros c Hc. simpl in Hc. destruct Hc as [<-|[<-|[<-|[<-|[<-|[<-|[<-|[]]]]]]]]; reflexivity.
Qed.

End PyFacts.
