(* ===== verification/Soup.v ===== *)
(** * The polling-place resolver's document model (BeautifulSoup)

    Line 30 of the script extracts the address from the parsed detail page:
    [', '.join(soup.find(id="divPollingPlace").p.a.stripped_strings)].
    This file models the tree [BeautifulSoup(..., 'html.parser')] builds
    (elements, text and comments), [find] with an [id] filter and the
    attribute access [tag.p] (a [find] of the first descendant [<p>]), the
    [stripped_strings] generator with Python's [str.strip], and the whole
    expression with the [AttributeError] Python raises when a step finds
    nothing.  Parsing the HTML bytes into the tree is not modelled: the
    detail page is given as its tree.  Module [SoupFacts] characterises
    the [AttributeError] cases of line 30 and shows that its result
    depends on the document only up to comments and whitespace-only
    strings ([noise_eq], with a [Proper] instance for [place_addr]). *)

From Stdlib Require Import String Ascii List Bool Arith Lia Morphisms Setoid.
From S2P Require Import Prelude PyValue.
Import ListNotations.
Open Scope string_scope.

Set Warnings "-register-all".

Module Soup.
Import Py.

(** ** Documents *)

(** A node of the parse tree: a tag with its lower-cased name, its
    attributes and its children; a text string; or a comment (a
    [Comment] is a string type [stripped_strings] skips). *)
Inductive node : Type :=
| Element (name : string) (attrs : list (string * string)) (children : list node)
| Text (s : string)
| Comment (s : string).

Definition children (n : node) : list node :=
  match n with
  | Element _ _ cs => cs
  | _ => []
  end.

Fixpoint attr_get (k : string) (attrs : list (string * string)) : option string :=
  match attrs with
  | [] => None
  | (k', v) :: attrs' => if String.eqb k k' then Some v else attr_get k attrs'
  end.

(** The filter of [find(id=v)]: a tag whose [id] attribute is [v]. *)
Definition has_id (v : string) (n : node) : bool :=
  match n with
  | Element _ attrs _ => match attr_get "id" attrs with
                         | Some x => String.eqb x v
                         | None => false
                         end
  | _ => false
  end.

(** The filter of [find("p")]: a tag named [p]. *)
Definition is_tag (t : string) (n : node) : bool :=
  match n with
  | Element name _ _ => String.eqb name t
  | _ => false
  end.

(** ** [find]: the first match in document order

    [find_node p n] tests [n], then searches its children; [find_in p cs]
    searches the forest [cs].  [x.find(...)] is [find_in p (children x)]:
    it searches the descendants of [x], not [x] itself. *)
Fixpoint find_node (p : node -> bool) (n : node) : option node :=
  if p n then Some n
  else match n with
       | Element _ _ cs =>
           (fix go (cs : list node) : option node :=
              match cs with
              | [] => None
              | c :: cs' => match find_node p c with
                            | Some r => Some r
                            | None => go cs'
                            end
              end) cs
       | _ => None
       end.

Definition find_in (p : node -> bool) : list node -> option node :=
  fix go (cs : list node) : option node :=
    match cs with
    | [] => None
    | c :: cs' => match find_node p c with
                  | Some r => Some r
                  | None => go cs'
                  end
    end.

(** [x.t] for a tag name [t] when [x] may be [None]: on [None] Python raises
    [AttributeError]; on a tag it is [x.find(t)], itself possibly [None]. *)
Definition getattr_tag (x : option node) (t : string) : res exn (option node) :=
  match x with
  | None => Err (AttributeError t)
  | Some n => Ok (find_in (is_tag t) (children n))
  end.

(** ** Strings *)

(** [str.isspace()] on the Latin-1 range: TAB..CR, the four separators
    0x1c..0x1f, SPACE, NEL (0x85) and NO-BREAK SPACE (0xa0). *)
Definition is_space (c : ascii) : bool :=
  let n := nat_of_ascii c in
  ((9 <=? n) && (n <=? 13) || (28 <=? n) && (n <=? 32) || (n =? 133) || (n =? 160))%nat.

Fixpoint lstrip (s : string) : string :=
  match s with
  | EmptyString => EmptyString
  | String c s' => if is_space c then lstrip s' else s
  end.

Fixpoint rstrip (s : string) : string :=
  match s with
  | EmptyString => EmptyString
  | String c s' =>
      let r := rstrip s' in
      if is_space c && String.eqb r "" then EmptyString else String c r
  end.

(** [s.strip()]. *)
Definition strip (s : string) : string := rstrip (lstrip s).

(** The text strings below a node in document order ([_all_strings]):
    comments are skipped. *)
Fixpoint node_strings (n : node) : list string :=
  match n with
  | Element _ _ cs => flat_map node_strings cs
  | Text s => [s]
  | Comment _ => []
  end.

(** [x.stripped_strings]: each descendant string stripped, the empty ones
    dropped. *)
Definition stripped_strings (x : node) : list string :=
  filter (fun s => negb (String.eqb s "")) (map strip (flat_map node_strings (children x))).

Definition getattr_stripped (x : option node) : res exn (list string) :=
  match x with
  | None => Err (AttributeError "stripped_strings")
  | Some n => Ok (stripped_strings n)
  end.

(** ** Line 30 *)

Definition container_id : string := "divPollingPlace".

(** [', '.join(soup.find(id="divPollingPlace").p.a.stripped_strings)],
    [soup] being the document's top-level nodes. *)
Definition place_addr (soup : list node) : res exn string :=
  p <-? getattr_tag (find_in (has_id container_id) soup) "p" ;;
  a <-? getattr_tag p "a" ;;
  ss <-? getattr_stripped a ;;
  Ok (String.concat ", " ss).

End Soup.

(** ** Properties of the document model *)

Module SoupFacts.
Import Py Soup.

(** Induction on documents, with a hypothesis for every child of a tag. *)
Section NodeInd.
Variable P : node -> Prop.
Hypothesis HElement : forall t a cs, Forall P cs -> P (Element t a cs).
Hypothesis HText : forall s, P (Text s).
Hypothesis HComment : forall s, P (Comment s).

Fixpoint node_ind' (n : node) : P n :=
  match n with
  | Element t a cs =>
      HElement t a cs
        ((fix go (cs : list node) : Forall P cs :=
            match cs with
            | [] => Forall_nil P
            | c :: cs' => Forall_cons c (node_ind' c) (go cs')
            end) cs)
  | Text s => HText s
  | Comment s => HComment s
  end.
End NodeInd.

(** ** Documents up to noise

    A comment, or a string that strips to nothing, contributes nothing to
    the address: [find] only returns tags, and [stripped_strings] skips
    comments and drops empty strings.  [denoise] removes every such node
    from a document; two documents are [noise_eq] when they agree once
    denoised. *)

Definition blank (n : node) : bool :=
  match n with
  | Comment _ => true
  | Text s => String.eqb (strip s) ""
  | Element _ _ _ => false
  end.

Fixpoint denoise (n : node) : node :=
  match n with
  | Element t a cs =>
      Element t a ((fix go (cs : list node) : list node :=
                      match cs with
                      | [] => []
                      | c :: cs' => if blank c then go cs' else denoise c :: go cs'
                      end) cs)
  | _ => n
  end.

Definition denoise_forest : list node -> list node :=
  fix go (cs : list node) : list node :=
    match cs with
    | [] => []
    | c :: cs' => if blank c then go cs' else denoise c :: go cs'
    end.

Definition noise_eq (d1 d2 : list node) : Prop := denoise_forest d1 = denoise_forest d2.

#[export] Instance noise_eq_Equivalence : Equivalence noise_eq.
Proof. unfold noise_eq. split; [intros d|intros d1 d2 H|intros d1 d2 d3 H1 H2]; congruence. Qed.

Lemma children_denoise n : children (denoise n) = denoise_forest (children n).
Proof. destruct n; reflexivity. Qed.

(** A filter that looks at tags only, and at their name and attributes. *)
Definition tag_filter (p : node -> bool) : Prop :=
  (forall t a cs cs', p (Element t a cs) = p (Element t a cs')) /\
  (forall s, p (Text s) = false) /\ (forall s, p (Comment s) = false).

Lemma has_id_tag_filter v : tag_filter (has_id v).
Proof. repeat split. Qed.

Lemma is_tag_tag_filter t : tag_filter (is_tag t).
Proof. repeat split. Qed.

Lemma find_node_element p t a cs :
  find_node p (Element t a cs) =
  if p (Element t a cs) then Some (Element t a cs) else find_in p cs.
Proof. reflexivity. Qed.

Lemma find_in_cons p c cs :
  find_in p (c :: cs) = match find_node p c with Some r => Some r | None => find_in p cs end.
Proof. reflexivity. Qed.

Section Find.
Variable p : node -> bool.
Hypothesis Hp : tag_filter p.

Lemma find_node_blank n : blank n = true -> find_node p n = None.
Proof.
  destruct Hp as (_ & Ht & Hc). destruct n as [| |]; simpl; try discriminate;
    intros _; [rewrite Ht|rewrite Hc]; reflexivity.
Qed.

Lemma find_in_denoise_forest cs :
  Forall (fun c => blank c = false -> find_node p (denoise c) = option_map denoise (find_node p c)) cs ->
  find_in p (denoise_forest cs) = option_map denoise (find_in p cs).
Proof.
  induction 1 as [|c cs Hc _ IH]; [reflexivity|]. cbn [denoise_forest]. rewrite find_in_cons.
  destruct (blank c) eqn:Hb.
  - rewrite (find_node_blank c Hb). exact IH.
  - rewrite find_in_cons, (Hc eq_refl). destruct (find_node p c); [reflexivity|exact IH].
Qed.

Lemma find_node_denoise n : blank n = false -> find_node p (denoise n) = option_map denoise (find_node p n).
Proof.
  induction n as [t a cs IH|s|s] using node_ind'; intros Hb;
    [|simpl; rewrite (proj1 (proj2 Hp)); reflexivity|discriminate].
  change (denoise (Element t a cs)) with (Element t a (denoise_forest cs)).
  rewrite !find_node_element, ((proj1 Hp) t a (denoise_forest cs) cs).
  destruct (p (Element t a cs)); [reflexivity|]. apply find_in_denoise_forest. exact IH.
Qed.

(** [find] on a denoised document finds the denoised node. *)
Lemma find_in_denoise cs : find_in p (denoise_forest cs) = option_map denoise (find_in p cs).
Proof. apply find_in_denoise_forest, Forall_forall. intros c _. apply find_node_denoise. Qed.

End Find.

(** The stripped non-empty strings of a forest. *)
Definition forest_strings (cs : list node) : list string :=
  filter (fun s => negb (String.eqb s "")) (map strip (flat_map node_strings cs)).

Lemma forest_strings_cons c cs : forest_strings (c :: cs) = (forest_strings [c] ++ forest_strings cs)%list.
Proof. unfold forest_strings. simpl. rewrite app_nil_r, map_app, filter_app. reflexivity. Qed.

Lemma forest_strings_blank c : blank c = true -> forest_strings [c] = [].
Proof.
  destruct c as [|s|s]; simpl; try discriminate; [|reflexivity].
  unfold forest_strings. simpl. intros H. rewrite H. reflexivity.
Qed.

Lemma forest_strings_denoise_forest cs :
  Forall (fun c => blank c = false -> forest_strings [denoise c] = forest_strings [c]) cs ->
  forest_strings (denoise_forest cs) = forest_strings cs.
Proof.
  induction 1 as [|c cs Hc _ IH]; [reflexivity|]. cbn [denoise_forest].
  rewrite (forest_strings_cons c). destruct (blank c) eqn:Hb.
  - rewrite forest_strings_blank by exact Hb. exact IH.
  - rewrite forest_strings_cons, (Hc eq_refl), IH. reflexivity.
Qed.

Lemma forest_strings_element t a cs : forest_strings [Element t a cs] = forest_strings cs.
Proof. unfold forest_strings. simpl. rewrite app_nil_r. reflexivity. Qed.

(** Denoising keeps the stripped strings. *)
Lemma forest_strings_denoise n : forest_strings [denoise n] = forest_strings [n].
Proof.
  induction n as [t a cs IH|s|s] using node_ind'; [|reflexivity|reflexivity].
  change (denoise (Element t a cs)) with (Element t a (denoise_forest cs)).
  rewrite !forest_strings_element. apply forest_strings_denoise_forest.
  eapply Forall_impl; [|exact IH]. intros c Hc _. exact Hc.
Qed.

Lemma stripped_strings_denoise n : stripped_strings (denoise n) = stripped_strings n.
Proof.
  change (stripped_strings (denoise n)) with (forest_strings (children (denoise n))).
  change (stripped_strings n) with (forest_strings (children n)).
  rewrite children_denoise. apply forest_strings_denoise_forest.
  apply Forall_forall. intros c _ _. apply forest_strings_denoise.
Qed.

Lemma getattr_tag_denoise x t :
  getattr_tag (option_map denoise x) t = res_map (option_map denoise) (getattr_tag x t).
Proof.
  destruct x as [n|]; [|reflexivity]. simpl. rewrite children_denoise, find_in_denoise by apply is_tag_tag_filter.
  reflexivity.
Qed.

(** The resolver reads a document up to noise. *)
Lemma place_addr_denoise soup : place_addr (denoise_forest soup) = place_addr soup.
Proof.
  unfold place_addr. rewrite find_in_denoise by apply has_id_tag_filter.
  rewrite getattr_tag_denoise. destruct (getattr_tag _ "p") as [x|]; [|reflexivity]. cbn [res_map res_bind].
  rewrite getattr_tag_denoise. destruct (getattr_tag x "a") as [y|]; [|reflexivity]. cbn [res_map res_bind].
  destruct y as [n|]; [|reflexivity]. simpl. rewrite stripped_strings_denoise. reflexivity.
Qed.

#[export] Instance place_addr_proper : Proper (noise_eq ==> eq) place_addr.
Proof. intros d1 d2 H. rewrite <- (place_addr_denoise d1), <- (place_addr_denoise d2). exact (f_equal _ H). Qed.

(** C13: the address is a function of the document up to noise: two
    detail pages that differ only in comments and in strings of
    whitespace, anywhere in the document, give the same result, the same
    address or the same exception.  The address depends on no comment,
    and a blank string adds no fragment. *)
Theorem place_addr_ignores_noise (d1 d2 : list node) :
  noise_eq d1 d2 -> place_addr d1 = place_addr d2.
Proof. intros H. rewrite H. reflexivity. Qed.

(** The exceptions of line 30. *)
Lemma place_addr_err soup e :
  place_addr soup = Err e ->
  e = AttributeError "p" \/ e = AttributeError "a" \/ e = AttributeError "stripped_strings".
Proof.
  unfold place_addr, getattr_tag, getattr_stripped.
  destruct (find_in _ soup); simpl; [|intros [= <-]; auto].
  destruct (find_in _ _); simpl; [|intros [= <-]; auto].
  destruct (find_in _ _); simpl; [discriminate|intros [= <-]; auto].
Qed.

(** C12: the resolver raises [AttributeError] exactly when one step of the
    path container -> first [<p>] -> first [<a>] finds nothing, naming the
    attribute accessed on [None]; it raises nothing else. *)
Theorem place_addr_errors (soup : list node) (e : exn) :
  place_addr soup = Err e <->
  (find_in (has_id container_id) soup = None /\ e = AttributeError "p") \/
  (exists div, find_in (has_id container_id) soup = Some div /\
     find_in (is_tag "p") (children div) = None /\ e = AttributeError "a") \/
  (exists div para, find_in (has_id container_id) soup = Some div /\
     find_in (is_tag "p") (children div) = Some para /\
     find_in (is_tag "a") (children para) = None /\ e = AttributeError "stripped_strings").
Proof.
  unfold place_addr, getattr_tag, getattr_stripped, res_bind.
  destruct (find_in _ soup) as [div|] eqn:Hd;
    [|split; [intros H; injection H as <-; auto | intros [[_ ->]|[[? [H _]]|[? [? [H _]]]]]; congruence]].
  destruct (find_in _ (children div)) as [para|] eqn:Hp;
    [|split; [intros H; injection H as <-; eauto 6 | intros [[H _]|[[? [H1 [H2 ->]]]|[? [? [H1 [H2 _]]]]]]; congruence]].
  destruct (find_in _ (children para)) as [anchor|] eqn:Ha.
  - split; [discriminate|]. intros [[H _]|[[? [H1 [H2 _]]]|[? [? [H1 [H2 [H3 _]]]]]]]; congruence.
  - split; [intros H; injection H as <-; eauto 10|].
    intros [[H _]|[[? [H1 [H2 _]]]|[? [? [H1 [H2 [H3 ->]]]]]]]; congruence.
Qed.

(** The detail page of the spec's scenario (section 8): the container, a
    heading paragraph with the link, a comment and whitespace-only text. *)
Definition scenario_page : list node :=
  [Element "html" []
    [Element "body" []
      [Element "div" [("id", "divPollingPlace"); ("class", "result")]
        [Text "  ";
         Element "p" []
           [Element "a" [("href", "https://maps.example/?q=123+Main+St")]
              [Text "
      123 Main St  "; Element "br" [] []; Comment " map link ";
               Text " Oak Grove, NC 27565 "; Text "   "]];
         Element "p" [] [Text "Oak Grove Fire Station"]]]]].

(** The scenario's page with its comment and blank strings removed and
    other comments and whitespace-only strings added. *)
Definition scenario_page_variant : list node :=
  [Comment " generated ";
   Element "html" []
    [Text "
";
     Element "body" []
      [Element "div" [("id", "divPollingPlace"); ("class", "result")]
        [Element "p" []
           [Element "a" [("href", "https://maps.example/?q=123+Main+St")]
              [Text "
      123 Main St  "; Text "	"; Element "br" [] [Text " "];
               Text " Oak Grove, NC 27565 "]];
         Comment " details ";
         Element "p" [] [Text "Oak Grove Fire Station"]]]]].

Lemma place_addr_ignores_noise_witness :
  place_addr scenario_page = place_addr scenario_page_variant.
Proof. apply place_addr_ignores_noise. vm_compute. reflexivity. Defined.

End SoupFacts.
