(* ===== verification/Csv.v ===== *)
(** * The record writer: [csv.writer] with [QUOTE_MINIMAL]

    Lines 14-16 open [nc_polling_places.csv] with [newline=''] and build a
    [csv.writer] with delimiter [","] (comma), the double-quote character as quote character and
    [csv.QUOTE_MINIMAL]; line 31 writes one row per resolved precinct.
    Module [Csv] models [writerow] for that dialect: each field is turned
    into text ([None] as the empty string, other non-strings by [str()]),
    quoted exactly when it contains the delimiter, the quote character, CR
    or LF, with quote characters doubled, and the row is ended by the
    default line terminator CR LF; a row made of one empty field is
    written as two quote characters.  Module [CsvReader] models [csv.reader] for the same
    dialect (the character state machine of CPython's [_csv] module fed
    line by line, with its field size limit as a parameter), the reader
    the spec (section 8) uses to state the round trip.  Module [CsvFacts]
    proves the round trip for every limit the fields fit. *)

From Stdlib Require Import String Ascii List Bool Lia ZArith.
From S2P Require Import Prelude PyValue.
Import ListNotations.
Open Scope string_scope.

Module Csv.
Import Py.

Definition delimiter : ascii := ",".
Definition quotechar : ascii := "034".
Definition CR : ascii := "013".
Definition LF : ascii := "010".

(** [dialect.lineterminator], CR LF. *)
Definition lineterminator : string := String CR (String LF EmptyString).

(** A character that makes [QUOTE_MINIMAL] quote its field: the delimiter,
    the quote character, or a character of the line terminator (CR, LF). *)
Definition special (c : ascii) : bool :=
  Ascii.eqb c delimiter || Ascii.eqb c quotechar || Ascii.eqb c CR || Ascii.eqb c LF.

Definition needs_quotes (s : string) : bool := negb (all_chars (fun c => negb (special c)) s).

(** [doublequote=True]: a quote character inside a quoted field is
    written twice. *)
Fixpoint double_quotes (s : string) : string :=
  match s with
  | EmptyString => EmptyString
  | String c s' =>
      if Ascii.eqb c quotechar then String c (String c (double_quotes s'))
      else String c (double_quotes s')
  end.

Definition quote_field (s : string) : string :=
  if needs_quotes s then String quotechar (double_quotes s ++ String quotechar EmptyString)
  else s.

(** The text of one field: [None] is written as the empty string, a
    string as itself, anything else as [str(v)]. *)
Definition field_text (v : pyval) : string :=
  match v with
  | PNone => EmptyString
  | _ => py_str v
  end.

(** One row of text fields, with its line terminator.  A row whose only
    field is empty is written quoted, so that it reads back as one empty
    field rather than an empty line. *)
Definition writerow_text (fields : list string) : string :=
  match fields with
  | [EmptyString] => String quotechar (String quotechar lineterminator)
  | _ => String.concat "," (map quote_field fields) ++ lineterminator
  end.

(** [writer.writerow(row)]. *)
Definition writerow (row : list pyval) : string := writerow_text (map field_text row).

End Csv.

Module CsvReader.
Import Csv.

(** The states of CPython's reader ([ESCAPED_CHAR] and
    [ESCAPE_IN_QUOTED_FIELD] need an escape character, which the dialect
    does not have). *)
Inductive rstate : Type :=
| StartRecord
| StartField
| InField
| InQuotedField
| QuoteInQuotedField
| EatCrnl.

(** The reader: its state, the fields of the record so far and the field
    being read. *)
Record reader : Type := Rd { r_state : rstate; r_fields : list string; r_field : string }.

(** The two [_csv.Error]s of this dialect: [new-line character seen in
    unquoted field] and [field larger than field limit]. *)
Inductive csv_error : Type := NewlineInUnquotedField | FieldTooLarge.

(** [csv.field_size_limit()] when the program has not changed it. *)
Definition field_size_limit : Z := 131072.

Definition is_nl (c : ascii) : bool := Ascii.eqb c CR || Ascii.eqb c LF.

Definition add_char (r : reader) (st : rstate) (c : ascii) : reader :=
  Rd st (r_fields r) (r_field r ++ String c EmptyString).

(** [parse_add_char]: a field already [limit] characters long takes no
    more ([None]: no limit). *)
Definition add_field_char (lim : option Z) (r : reader) (st : rstate) (c : ascii)
  : res csv_error reader :=
  match lim with
  | Some l => if (l <=? Z.of_nat (String.length (r_field r)))%Z then Err FieldTooLarge
              else Ok (add_char r st c)
  | None => Ok (add_char r st c)
  end.

Definition save_field (r : reader) (st : rstate) : reader :=
  Rd st (r_fields r ++ [r_field r])%list EmptyString.

(** [parse_process_char] on a character ([Some c]) or on the end of a line
    ([None]), with the field size limit [lim]. *)
Definition parse_char (lim : option Z) (r : reader) (x : option ascii) : res csv_error reader :=
  let start_field c :=
    if is_nl c then Ok (save_field r EatCrnl)
    else if Ascii.eqb c quotechar then Ok (Rd InQuotedField (r_fields r) (r_field r))
    else if Ascii.eqb c delimiter then Ok (save_field r StartField)
    else add_field_char lim r InField c in
  match r_state r, x with
  | StartRecord, None => Ok r
  | StartRecord, Some c => if is_nl c then Ok (Rd EatCrnl (r_fields r) (r_field r)) else start_field c
  | StartField, None => Ok (save_field r StartRecord)
  | StartField, Some c => start_field c
  | InField, None => Ok (save_field r StartRecord)
  | InField, Some c =>
      if is_nl c then Ok (save_field r EatCrnl)
      else if Ascii.eqb c delimiter then Ok (save_field r StartField)
      else add_field_char lim r InField c
  | InQuotedField, None => Ok r
  | InQuotedField, Some c =>
      if Ascii.eqb c quotechar then Ok (Rd QuoteInQuotedField (r_fields r) (r_field r))
      else add_field_char lim r InQuotedField c
  | QuoteInQuotedField, None => Ok (save_field r StartRecord)
  | QuoteInQuotedField, Some c =>
      if Ascii.eqb c quotechar then add_field_char lim r InQuotedField c
      else if Ascii.eqb c delimiter then Ok (save_field r StartField)
      else if is_nl c then Ok (save_field r EatCrnl)
      else add_field_char lim r InField c
  | EatCrnl, None => Ok (Rd StartRecord (r_fields r) (r_field r))
  | EatCrnl, Some c => if is_nl c then Ok r else Err NewlineInUnquotedField
  end.

(** The end of a line, after which a record is complete when the reader is
    back in [StartRecord]. *)
Definition end_line_lim (lim : option Z) (r : reader) (rows : list (list string))
  : res csv_error (reader * list (list string)) :=
  r' <-? parse_char lim r None ;;
  match r_state r' with
  | StartRecord => Ok (Rd StartRecord [] EmptyString, (rows ++ [r_fields r'])%list)
  | _ => Ok (r', rows)
  end.

(** A line ends after LF, and after a CR not followed by LF (the file is
    read with [newline=''], universal newlines untranslated). *)
Definition ends_line (c : ascii) (rest : string) : bool :=
  Ascii.eqb c LF ||
  (Ascii.eqb c CR && match rest with String d _ => negb (Ascii.eqb d LF) | EmptyString => true end).

Fixpoint read_lim (lim : option Z) (r : reader) (rows : list (list string)) (s : string)
  : res csv_error (reader * list (list string)) :=
  match s with
  | EmptyString => Ok (r, rows)
  | String c s' =>
      r1 <-? parse_char lim r (Some c) ;;
      if ends_line c s' then
        p <-? end_line_lim lim r1 rows ;; read_lim lim (fst p) (snd p) s'
      else read_lim lim r1 rows s'
  end.

(** [list(csv.reader(f))]: a last line without terminator still ends
    with an end of line; at the end of the data a quoted field left open
    is saved ([strict=False]). *)
Definition csv_read_lim (lim : option Z) (s : string) : res csv_error (list (list string)) :=
  p <-? read_lim lim (Rd StartRecord [] EmptyString) [] s ;;
  p' <-? match last_char s with
         | Some c => if is_nl c then Ok p else end_line_lim lim (fst p) (snd p)
         | None => Ok p
         end ;;
  let '(r, rows) := p' in
  Ok (match r_state r with
      | InQuotedField => (rows ++ [r_fields r ++ [r_field r]])%list
      | _ => rows
      end).

(** The reader with its limit lifted ([csv.field_size_limit(sys.maxsize)]),
    in which the round trip is stated, and the reader as the program
    finds it. *)
Abbreviation process := (parse_char None).
Abbreviation end_line := (end_line_lim None).
Abbreviation read_str := (read_lim None).
Abbreviation csv_read := (csv_read_lim None).

Definition csv_read_default : string -> res csv_error (list (list string)) :=
  csv_read_lim (Some field_size_limit).

End CsvReader.

(** ** The writer's output reads back as the rows written *)

Module CsvFacts.
Import Py Csv CsvReader.

(** Splitting the input never separates a CR from the LF after it. *)
Definition no_crlf_split (a b : string) : bool :=
  match last_char a, b with
  | Some c, String d _ => negb (Ascii.eqb c CR && Ascii.eqb d LF)
  | _, _ => true
  end.

Lemma ends_line_app c a b :
  no_crlf_split (String c a) b = true -> ends_line c (a ++ b) = ends_line c a.
Proof.
  unfold no_crlf_split. rewrite last_char_cons.
  destruct a as [|d a]; simpl; [|reflexivity].
  unfold ends_line. destruct b as [|d b]; [reflexivity|].
  destruct (Ascii.eqb c CR), (Ascii.eqb d LF); simpl; congruence.
Qed.

Lemma no_crlf_split_tail c a b :
  a <> EmptyString -> no_crlf_split (String c a) b = no_crlf_split a b.
Proof.
  intros Ha. unfold no_crlf_split. rewrite last_char_cons.
  destruct a as [|d a']; [congruence|]. rewrite last_char_cons.
  destruct (last_char a'); reflexivity.
Qed.

(** Reading [a ++ b] is reading [a], then [b], with any limit. *)
Lemma read_str_app lim r rows a b :
  no_crlf_split a b = true ->
  read_lim lim r rows (a ++ b) = p <-? read_lim lim r rows a ;; read_lim lim (fst p) (snd p) b.
Proof.
  revert r rows. induction a as [|c a IH]; intros r rows Hs; [reflexivity|].
  change (String c a ++ b) with (String c (a ++ b)). simpl.
  rewrite ends_line_app by exact Hs. rewrite res_bind_assoc.
  destruct (parse_char lim r (Some c)) as [r1|e]; simpl; [|reflexivity].
  assert (IH' : forall r rows, read_lim lim r rows (a ++ b) =
                  p <-? read_lim lim r rows a ;; read_lim lim (fst p) (snd p) b).
  { intros r' rows'. destruct a as [|d a]; [reflexivity|]. apply IH.
    rewrite <- no_crlf_split_tail with (c := c) by discriminate. exact Hs. }
  destruct (ends_line c a); [rewrite res_bind_assoc; destruct (end_line_lim lim r1 rows) as [p|e]; simpl|]; auto.
Qed.

Lemma read_str_cons lim r rows c s :
  read_lim lim r rows (String c s) =
  r1 <-? parse_char lim r (Some c) ;;
  if ends_line c s then p <-? end_line_lim lim r1 rows ;; read_lim lim (fst p) (snd p) s
  else read_lim lim r1 rows s.
Proof. reflexivity. Qed.

Definition plain (c : ascii) : bool := negb (special c).

Lemma plain_facts c :
  plain c = true ->
  Ascii.eqb c CR = false /\ Ascii.eqb c LF = false /\
  Ascii.eqb c delimiter = false /\ Ascii.eqb c quotechar = false.
Proof.
  unfold plain, special. intros H.
  destruct (Ascii.eqb c delimiter), (Ascii.eqb c quotechar), (Ascii.eqb c CR), (Ascii.eqb c LF);
    simpl in H; try discriminate; auto.
Qed.

Lemma ends_line_plain c s : plain c = true -> ends_line c s = false.
Proof. intros H. apply plain_facts in H as (Hcr & Hlf & _). unfold ends_line. rewrite Hcr, Hlf. reflexivity. Qed.

Lemma is_nl_plain c : plain c = true -> is_nl c = false.
Proof. intros H. apply plain_facts in H as (Hcr & Hlf & _). unfold is_nl. rewrite Hcr, Hlf. reflexivity. Qed.

(** The reader's lemmas hold for every field size limit [lim], as long
    as the field being built stays [within] it. *)
Definition within (lim : option Z) (n : nat) : Prop :=
  match lim with None => True | Some l => (Z.of_nat n <= l)%Z end.

Lemma within_le lim m n : within lim n -> (m <= n)%nat -> within lim m.
Proof. destruct lim; simpl; [lia|auto]. Qed.

Lemma add_field_char_ok lim r st c :
  within lim (S (String.length (r_field r))) -> add_field_char lim r st c = Ok (add_char r st c).
Proof.
  destruct lim as [l|]; simpl; [|reflexivity]. intros Hw.
  destruct (Z.leb_spec l (Z.of_nat (String.length (r_field r)))); [lia|reflexivity].
Qed.

Lemma process_in_field_plain lim fs acc c :
  plain c = true -> within lim (S (String.length acc)) ->
  parse_char lim (Rd InField fs acc) (Some c) = Ok (Rd InField fs (acc ++ String c EmptyString)).
Proof.
  intros H Hw. pose proof (is_nl_plain c H) as Hnl. apply plain_facts in H as (_ & _ & Hd & _).
  unfold parse_char; simpl. rewrite Hnl, Hd. apply add_field_char_ok. exact Hw.
Qed.

Lemma process_start_field_plain lim fs acc c :
  plain c = true -> within lim (S (String.length acc)) ->
  parse_char lim (Rd StartField fs acc) (Some c) = Ok (Rd InField fs (acc ++ String c EmptyString)).
Proof.
  intros H Hw. pose proof (is_nl_plain c H) as Hnl. apply plain_facts in H as (_ & _ & Hd & Hq).
  unfold parse_char; simpl. rewrite Hnl, Hq, Hd. apply add_field_char_ok. exact Hw.
Qed.

(** An unquoted field: every character is added to the field. *)
Lemma read_plain lim fs acc rows s :
  all_chars plain s = true -> within lim (String.length acc + String.length s) ->
  read_lim lim (Rd InField fs acc) rows s = Ok (Rd InField fs (acc ++ s), rows).
Proof.
  revert acc. induction s as [|c s IH]; intros acc Hs Hw.
  - simpl. rewrite append_nil_r. reflexivity.
  - simpl in Hs. apply andb_true_iff in Hs as [Hc Hs]. cbn [String.length] in Hw.
    rewrite read_str_cons, process_in_field_plain by (try exact Hc; apply (within_le _ _ _ Hw); lia).
    cbn [res_bind]. rewrite ends_line_plain by exact Hc.
    rewrite IH, append_assoc by (try exact Hs; apply (within_le _ _ _ Hw); rewrite length_append; simpl; lia).
    reflexivity.
Qed.

Lemma process_in_quoted lim fs acc c :
  Ascii.eqb c quotechar = false -> within lim (S (String.length acc)) ->
  parse_char lim (Rd InQuotedField fs acc) (Some c) = Ok (Rd InQuotedField fs (acc ++ String c EmptyString)).
Proof. intros H Hw. unfold parse_char; simpl. rewrite H. apply add_field_char_ok. exact Hw. Qed.

Lemma end_line_in_quoted lim fs acc rows :
  end_line_lim lim (Rd InQuotedField fs acc) rows = Ok (Rd InQuotedField fs acc, rows).
Proof. reflexivity. Qed.

Lemma read_doubled_quote lim fs acc rows s :
  within lim (S (String.length acc)) ->
  read_lim lim (Rd InQuotedField fs acc) rows (String quotechar (String quotechar s)) =
  read_lim lim (Rd InQuotedField fs (acc ++ String quotechar EmptyString)) rows s.
Proof.
  intros Hw. simpl. unfold parse_char. simpl. rewrite add_field_char_ok by exact Hw. reflexivity.
Qed.

(** Inside quotes, doubled quote characters read as one and line ends are
    part of the field. *)
Lemma read_quoted_body lim fs acc rows s :
  within lim (String.length acc + String.length s) ->
  read_lim lim (Rd InQuotedField fs acc) rows (double_quotes s) = Ok (Rd InQuotedField fs (acc ++ s), rows).
Proof.
  revert acc. induction s as [|c s IH]; intros acc Hw.
  - simpl. rewrite append_nil_r. reflexivity.
  - cbn [String.length] in Hw.
    assert (Hw1 : within lim (S (String.length acc))) by (apply (within_le _ _ _ Hw); lia).
    assert (Hw2 : within lim (String.length (acc ++ String c EmptyString) + String.length s))
      by (apply (within_le _ _ _ Hw); rewrite length_append; simpl; lia).
    simpl double_quotes. destruct (Ascii.eqb c quotechar) eqn:Hq.
    + apply Ascii.eqb_eq in Hq. subst c. rewrite read_doubled_quote, IH, append_assoc by assumption.
      reflexivity.
    + rewrite read_str_cons, process_in_quoted by assumption. cbn [res_bind].
      destruct (ends_line c (double_quotes s)); cbn [res_bind];
        rewrite ?end_line_in_quoted; cbn [res_bind fst snd]; rewrite IH, append_assoc by exact Hw2;
        reflexivity.
Qed.

Lemma no_crlf_split_not_cr a b : last_char a <> Some CR -> no_crlf_split a b = true.
Proof.
  unfold no_crlf_split. destruct (last_char a) as [c|]; [|reflexivity]. destruct b as [|d b]; [reflexivity|].
  intros H. destruct (Ascii.eqb_spec c CR); [congruence|reflexivity].
Qed.

Lemma last_char_quote_field f : last_char (quote_field f) <> Some CR.
Proof.
  unfold quote_field, needs_quotes. destruct (all_chars _ f) eqn:Hp; cbn [negb].
  - intros H. apply (all_chars_last _ _ _ Hp) in H. discriminate.
  - rewrite last_char_cons, last_char_app. discriminate.
Qed.

(** Where the reader stands after a field's text. *)
Definition field_end (fs : list string) (f : string) : reader :=
  if needs_quotes f then Rd QuoteInQuotedField fs f
  else if String.eqb f EmptyString then Rd StartField fs EmptyString
  else Rd InField fs f.

(** A field of [writerow] fits the limit when its text does. *)
Definition fits_in (lim : option Z) (f : string) : Prop := within lim (String.length f).

Lemma read_field lim fs rows f :
  fits_in lim f ->
  read_lim lim (Rd StartField fs EmptyString) rows (quote_field f) = Ok (field_end fs f, rows).
Proof.
  intros Hw. unfold quote_field, field_end. destruct (needs_quotes f) eqn:Hq.
  - change (read_lim lim (Rd StartField fs EmptyString) rows
              (String quotechar (double_quotes f ++ String quotechar EmptyString)))
      with (read_lim lim (Rd InQuotedField fs EmptyString) rows (double_quotes f ++ String quotechar EmptyString)).
    rewrite read_str_app by (unfold no_crlf_split; destruct (last_char _); [rewrite andb_false_r|]; reflexivity).
    rewrite read_quoted_body by exact Hw. reflexivity.
  - unfold needs_quotes in Hq. apply negb_false_iff in Hq.
    destruct f as [|c f]; [reflexivity|]. simpl in Hq. apply andb_true_iff in Hq as [Hc Hf].
    unfold fits_in in Hw. cbn [String.length] in Hw.
    rewrite read_str_cons, process_start_field_plain by (try exact Hc; apply (within_le _ _ _ Hw); simpl; lia).
    cbn [res_bind]. rewrite ends_line_plain by exact Hc. rewrite read_plain by (try exact Hf; exact Hw).
    reflexivity.
Qed.

Lemma field_end_comma lim fs f :
  parse_char lim (field_end fs f) (Some ","%char) = Ok (Rd StartField (fs ++ [f])%list EmptyString).
Proof.
  unfold field_end. destruct (needs_quotes f); [reflexivity|].
  destruct (String.eqb_spec f EmptyString) as [->|]; reflexivity.
Qed.

Lemma field_end_cr lim fs f :
  parse_char lim (field_end fs f) (Some CR) = Ok (Rd EatCrnl (fs ++ [f])%list EmptyString).
Proof.
  unfold field_end. destruct (needs_quotes f); [reflexivity|].
  destruct (String.eqb_spec f EmptyString) as [->|]; reflexivity.
Qed.

(** CR LF after the last field completes the record. *)
Lemma read_row_end lim fs f rows :
  read_lim lim (field_end fs f) rows lineterminator =
  Ok (Rd StartRecord [] EmptyString, (rows ++ [fs ++ [f]])%list).
Proof. unfold lineterminator. rewrite read_str_cons, field_end_cr. reflexivity. Qed.

Lemma read_fields lim fs' f fs rows :
  Forall (fits_in lim) (f :: fs') ->
  read_lim lim (Rd StartField fs EmptyString) rows
    (String.concat "," (map quote_field (f :: fs')) ++ lineterminator) =
  Ok (Rd StartRecord [] EmptyString, (rows ++ [fs ++ f :: fs'])%list).
Proof.
  revert f fs. induction fs' as [|g fs' IH]; intros f fs Hfit; inversion Hfit as [|? ? Hf Hfs']; subst.
  - cbn [map String.concat].
    rewrite read_str_app by apply no_crlf_split_not_cr, last_char_quote_field.
    rewrite read_field by exact Hf. apply read_row_end.
  - cbn [map]. change (String.concat "," (quote_field f :: quote_field g :: map quote_field fs'))
      with (quote_field f ++ String "," (String.concat "," (quote_field g :: map quote_field fs'))).
    rewrite append_assoc. simpl append at 2.
    rewrite read_str_app by apply no_crlf_split_not_cr, last_char_quote_field.
    rewrite read_field by exact Hf. cbn [res_bind fst snd]. rewrite read_str_cons, field_end_comma.
    cbn [res_bind]. change (ends_line ","%char _) with false. cbv iota.
    specialize (IH g (fs ++ [f])%list Hfs'). rewrite <- app_assoc in IH. exact IH.
Qed.

Lemma read_start_record lim fs acc rows c s :
  is_nl c = false ->
  read_lim lim (Rd StartRecord fs acc) rows (String c s) = read_lim lim (Rd StartField fs acc) rows (String c s).
Proof. intros H. rewrite !read_str_cons. unfold parse_char. simpl. rewrite H. reflexivity. Qed.

Lemma quote_field_head f s :
  f <> EmptyString -> exists c t, quote_field f ++ s = String c t /\ is_nl c = false.
Proof.
  intros Hf. unfold quote_field, needs_quotes. destruct (all_chars _ f) eqn:Hp; cbn [negb].
  - destruct f as [|c f]; [congruence|]. simpl in Hp. apply andb_true_iff in Hp as [Hc _].
    exists c, (f ++ s). split; [reflexivity|]. exact (is_nl_plain c Hc).
  - eexists _, _. split; reflexivity.
Qed.

(** One row written by [writerow] reads back as that row. *)
Lemma read_row lim fs rows :
  Forall (fits_in lim) fs ->
  read_lim lim (Rd StartRecord [] EmptyString) rows (writerow_text fs) =
  Ok (Rd StartRecord [] EmptyString, (rows ++ [fs])%list).
Proof.
  intros Hfit. destruct fs as [|f fs']; [reflexivity|].
  assert (Hgen : String.concat "," (map quote_field (f :: fs')) <> EmptyString ->
                 read_lim lim (Rd StartRecord [] EmptyString) rows
                   (String.concat "," (map quote_field (f :: fs')) ++ lineterminator) =
                 Ok (Rd StartRecord [] EmptyString, (rows ++ [f :: fs'])%list)).
  { intros Hne.
    assert (Hh : exists c t, String.concat "," (map quote_field (f :: fs')) ++ lineterminator = String c t
                             /\ is_nl c = false).
    { destruct (String.eqb_spec f EmptyString) as [->|Hf].
      - destruct fs' as [|g fs']; [contradiction|]. eexists _, _; split; reflexivity.
      - destruct fs' as [|g fs']; cbn [map String.concat]; [apply quote_field_head; exact Hf|].
        change (String.concat "," (quote_field f :: quote_field g :: map quote_field fs'))
          with (quote_field f ++ String "," (String.concat "," (quote_field g :: map quote_field fs'))).
        rewrite append_assoc. apply quote_field_head. exact Hf. }
    destruct Hh as (c & t & Ht & Hc). rewrite Ht, read_start_record, <- Ht by exact Hc.
    apply read_fields. exact Hfit. }
  destruct fs' as [|g fs'].
  - destruct f as [|c f]; [reflexivity|]. apply Hgen.
    cbn [map String.concat]. unfold quote_field. destruct (needs_quotes _); discriminate.
  - replace (writerow_text (f :: g :: fs'))
      with (String.concat "," (map quote_field (f :: g :: fs')) ++ lineterminator)
      by (destruct f; reflexivity).
    apply Hgen. cbn [map]. change (String.concat "," (quote_field f :: quote_field g :: map quote_field fs'))
      with (quote_field f ++ String "," (String.concat "," (quote_field g :: map quote_field fs'))).
    destruct (quote_field f); discriminate.
Qed.

Lemma last_char_writerow fs : last_char (writerow_text fs) = Some LF.
Proof. destruct fs as [|[|c f] [|g fs]]; try reflexivity; unfold writerow_text; rewrite last_char_app; reflexivity. Qed.

Lemma concat_empty_cons (x : string) l : String.concat "" (x :: l) = x ++ String.concat "" l.
Proof. destruct l; simpl; [rewrite append_nil_r|]; reflexivity. Qed.

Lemma read_rows lim rs rows :
  Forall (Forall (fits_in lim)) rs ->
  read_lim lim (Rd StartRecord [] EmptyString) rows (String.concat "" (map writerow_text rs)) =
  Ok (Rd StartRecord [] EmptyString, (rows ++ rs)%list).
Proof.
  revert rows. induction rs as [|fs rs IH]; intros rows Hfit.
  - simpl. rewrite app_nil_r. reflexivity.
  - inversion Hfit as [|? ? Hfs Hrs]; subst. cbn [map]. rewrite concat_empty_cons.
    rewrite read_str_app by (apply no_crlf_split_not_cr; rewrite last_char_writerow; discriminate).
    rewrite read_row by exact Hfs. simpl res_bind. rewrite IH, <- app_assoc by exact Hrs. reflexivity.
Qed.

Lemma last_char_rows rs :
  last_char (String.concat "" (map writerow_text rs)) = None \/
  last_char (String.concat "" (map writerow_text rs)) = Some LF.
Proof.
  induction rs as [|fs rs IH]; [left; reflexivity|].
  right. cbn [map]. rewrite concat_empty_cons, last_char_app, last_char_writerow.
  destruct IH as [-> | ->]; reflexivity.
Qed.

(** The reader's end of input closes the last record of a written text,
    under any limit the fields fit. *)
Lemma csv_read_lim_rows lim (rs : list (list string)) :
  Forall (Forall (fits_in lim)) rs ->
  csv_read_lim lim (String.concat "" (map writerow_text rs)) = Ok rs.
Proof.
  intros Hfit. unfold csv_read_lim. rewrite read_rows by exact Hfit. simpl res_bind.
  destruct (last_char_rows rs) as [-> | ->]; reflexivity.
Qed.

Lemma fits_in_none rs : Forall (Forall (fits_in None)) rs.
Proof. apply Forall_forall. intros fs _. apply Forall_forall. intros f _. exact I. Qed.

Lemma csv_read_rows (rs : list (list string)) :
  csv_read (String.concat "" (map writerow_text rs)) = Ok rs.
Proof. apply csv_read_lim_rows, fits_in_none. Qed.

(** C3: reading the text of any sequence of rows written by [writerow]
    with [csv.reader] in the same dialect gives back exactly those rows,
    field for field: delimiters, quote characters, CR and LF inside a
    field, empty fields, a lone empty field and empty rows included.  The
    reader is [csv.reader] with its field size limit lifted; CsvLimit.v
    treats the default limit. *)
Theorem csv_roundtrip (rs : list (list string)) :
  csv_read (String.concat "" (map writerow_text rs)) = Ok rs.
Proof. apply csv_read_rows. Qed.

End CsvFacts.
