(* ===== verification/CsvLimit.v ===== *)
(** * The field size limit of [csv.reader]

    CPython's reader refuses to grow a field past [csv.field_size_limit()]
    characters ([_csv.Error: field larger than field limit]); the limit is
    131072 unless the program raises it, and this script does not.  The
    reader of Csv.v is parametrised by the limit ([parse_char lim]); the
    round trip of Csv.v is stated for the reader with the limit lifted.
    Module [CsvLimit] relates the two: whatever a limited reader returns,
    the unlimited one returns too, with every field within the limit; and
    conversely the text of rows within the limit is read back under it, so
    that with the default limit the round trip holds exactly for the rows
    whose fields have at most 131072 characters. *)

From Stdlib Require Import String Ascii List ZArith Bool Lia.
From S2P Require Import Prelude.
From S2P Require Import PyValue.
From S2P Require Import Csv.
Import ListNotations.

Module CsvLimit.
Import Csv CsvReader CsvFacts.

Section Limit.
Variable l : Z.
Hypothesis Hl : (0 <= l)%Z.

(** ** The limited reader refines the unlimited one *)

Lemma add_field_char_sound r st c r' :
  add_field_char (Some l) r st c = Ok r' -> add_field_char None r st c = Ok r'.
Proof. simpl. destruct (l <=? _)%Z; [discriminate|auto]. Qed.

(** Split a step of [parse_char] into the branches of its code. *)
Ltac parse_cases r x :=
  unfold parse_char; destruct (r_state r); destruct x as [c|]; lazy beta zeta;
  repeat match goal with |- context [if ?b then _ else _] => destruct b end.

Lemma parse_char_sound r x r' : parse_char (Some l) r x = Ok r' -> parse_char None r x = Ok r'.
Proof. parse_cases r x; auto using add_field_char_sound. Qed.

Lemma end_line_sound r rows p :
  end_line_lim (Some l) r rows = Ok p -> end_line_lim None r rows = Ok p.
Proof.
  unfold end_line_lim. destruct (parse_char (Some l) r None) as [r'|e] eqn:H; [|discriminate].
  rewrite (parse_char_sound _ _ _ H). auto.
Qed.

Lemma read_lim_sound s : forall r rows p,
  read_lim (Some l) r rows s = Ok p -> read_lim None r rows s = Ok p.
Proof.
  induction s as [|c s IH]; intros r rows p; [auto|]. rewrite !read_str_cons.
  destruct (parse_char (Some l) r (Some c)) as [r1|e] eqn:H1; [|discriminate].
  rewrite (parse_char_sound _ _ _ H1). cbn [res_bind].
  destruct (ends_line c s); [|apply IH].
  destruct (end_line_lim (Some l) r1 rows) as [q|e] eqn:H2; [|discriminate].
  rewrite (end_line_sound _ _ _ H2). apply IH.
Qed.

(** ** Every field a limited reader returns fits the limit *)

Definition fits (f : string) : Prop := (Z.of_nat (String.length f) <= l)%Z.

Definition rd_fits (r : reader) : Prop := Forall fits (r_fields r) /\ fits (r_field r).

Lemma fits_empty : fits EmptyString.
Proof. unfold fits. simpl. lia. Qed.

Lemma fits_save r st : rd_fits r -> rd_fits (save_field r st).
Proof. intros [Hfs Hf]. split; [apply Forall_app; auto|apply fits_empty]. Qed.

Lemma fits_add r st c r' : rd_fits r -> add_field_char (Some l) r st c = Ok r' -> rd_fits r'.
Proof.
  intros [Hfs Hf]. simpl. destruct (Z.leb_spec l (Z.of_nat (String.length (r_field r)))); [discriminate|].
  intros He. injection He as <-. split; [exact Hfs|]. unfold fits. simpl.
  rewrite length_append. simpl. lia.
Qed.

Lemma parse_char_fits r x r' : rd_fits r -> parse_char (Some l) r x = Ok r' -> rd_fits r'.
Proof.
  intros Hr. parse_cases r x; intros Hp;
    first [ discriminate
          | injection Hp as <-; first [exact Hr | apply fits_save; exact Hr]
          | eapply fits_add; eassumption ].
Qed.

Lemma end_line_fits r rows r' rows' :
  rd_fits r -> Forall (Forall fits) rows ->
  end_line_lim (Some l) r rows = Ok (r', rows') -> rd_fits r' /\ Forall (Forall fits) rows'.
Proof.
  intros Hr Hrows. unfold end_line_lim.
  destruct (parse_char (Some l) r None) as [r1|e] eqn:H; [|discriminate]. cbn [res_bind].
  assert (Hr1 := parse_char_fits _ _ _ Hr H).
  destruct (r_state r1); intros He; injection He as <- <-; auto.
  split; [split; [constructor|apply fits_empty]|]. apply Forall_app. split; [exact Hrows|].
  constructor; [apply Hr1|constructor].
Qed.

Lemma read_lim_fits s : forall r rows r' rows',
  rd_fits r -> Forall (Forall fits) rows ->
  read_lim (Some l) r rows s = Ok (r', rows') -> rd_fits r' /\ Forall (Forall fits) rows'.
Proof.
  induction s as [|c s IH]; intros r rows r' rows' Hr Hrows.
  - intros H. injection H as <- <-. auto.
  - rewrite read_str_cons.
    destruct (parse_char (Some l) r (Some c)) as [r1|e] eqn:H1; [|discriminate]. cbn [res_bind].
    assert (Hr1 := parse_char_fits _ _ _ Hr H1).
    destruct (ends_line c s); [|apply IH; assumption].
    destruct (end_line_lim (Some l) r1 rows) as [[r2 rows2]|e] eqn:H2; [|discriminate].
    destruct (end_line_fits _ _ _ _ Hr1 Hrows H2). apply IH; assumption.
Qed.

End Limit.

(** A reader with a field size limit returns nothing the reader with
    the limit lifted would not: whenever it succeeds, the unlimited
    reader gives the same rows, each field within the limit. *)
Lemma csv_read_limited_sound (l : Z) (s : string) (rs : list (list string)) :
  (0 <= l)%Z -> csv_read_lim (Some l) s = Ok rs ->
  csv_read s = Ok rs /\ Forall (Forall (fits l)) rs.
Proof.
  intros Hl. unfold csv_read_lim.
  destruct (read_lim (Some l) _ [] s) as [[r rows]|e] eqn:H1; [|discriminate]. cbn [res_bind].
  rewrite (read_lim_sound l _ _ _ _ H1). cbn [res_bind].
  destruct (read_lim_fits l Hl s (Rd StartRecord [] EmptyString) [] r rows
              (conj (Forall_nil _) (fits_empty l Hl)) (Forall_nil _) H1)
    as [Hr Hrows].
  assert (Hfin : forall r' rows', rd_fits l r' -> Forall (Forall (fits l)) rows' ->
            Forall (Forall (fits l)) (match r_state r' with
                                      | InQuotedField => (rows' ++ [r_fields r' ++ [r_field r']])%list
                                      | _ => rows' end)).
  { intros r' rows' [Hfs Hf] Hrows'. destruct (r_state r'); auto. apply Forall_app.
    split; [exact Hrows'|]. constructor; [|constructor].
    apply Forall_app. split; [exact Hfs|constructor; [exact Hf|constructor]]. }
  destruct (last_char s) as [c|]; [destruct (is_nl c)|]; cbn [res_bind].
  - intros Hok. injection Hok as <-. auto.
  - cbn [fst snd]. destruct (end_line_lim (Some l) r rows) as [[r' rows']|e] eqn:H2; [|discriminate].
    rewrite (end_line_sound l _ _ _ H2). cbn [res_bind].
    destruct (end_line_fits l Hl _ _ _ _ Hr Hrows H2).
    intros Hok. injection Hok as <-. auto.
  - intros Hok. injection Hok as <-. auto.
Qed.

(** C18: read with a field size limit, the text of any rows written by
    [writerow] gives back exactly those rows or an error, never other
    rows; and when it succeeds every field fits the limit. *)
Theorem csv_read_limited_written (l : Z) (rs rs' : list (list string)) :
  (0 <= l)%Z -> csv_read_lim (Some l) (String.concat "" (map writerow_text rs)) = Ok rs' ->
  rs' = rs /\ Forall (Forall (fits l)) rs.
Proof.
  intros Hl H. destruct (csv_read_limited_sound l _ _ Hl H) as [Hr Hf].
  rewrite csv_read_rows in Hr. injection Hr as ->. auto.
Qed.

Lemma csv_read_limited_written_witness :
  [["ab"; "c"]] = [["ab"; "c"]] /\ Forall (Forall (fits 5)) [["ab"; "c"]].
Proof. apply (csv_read_limited_written 5 [["ab"; "c"]]); [lia|vm_compute; reflexivity]. Defined.

(** The converse of C18: the text of rows whose fields fit the limit is
    read back under the limit. *)
Lemma written_rows_fit_read (l : Z) (rs : list (list string)) :
  Forall (Forall (fits l)) rs -> csv_read_lim (Some l) (String.concat "" (map writerow_text rs)) = Ok rs.
Proof. intros Hf. apply csv_read_lim_rows. exact Hf. Qed.

(** C19: with the field size limit the script leaves in place, the text
    of any rows written by [writerow] reads back as those rows exactly
    when every field has at most 131072 characters; otherwise the reader
    raises. *)
Theorem default_reader_roundtrip_iff (rs : list (list string)) :
  csv_read_default (String.concat "" (map writerow_text rs)) = Ok rs <->
  Forall (Forall (fits field_size_limit)) rs.
Proof.
  unfold csv_read_default. split.
  - intros H. exact (proj2 (csv_read_limited_sound field_size_limit _ _ ltac:(unfold field_size_limit; lia) H)).
  - apply written_rows_fit_read.
Qed.

End CsvLimit.
