(* ===== verification/Scraper.v ===== *)
(** * The scrape-and-extract pipeline (lines 11-32 of the script)

    The script opens the output file, then for each county id [i] of
    [range(1, 101)] posts [{'CountyId': i}] to the precinct-list endpoint,
    decodes the JSON reply, and for each precinct of it that is not the
    placeholder ["<Select a Precinct>"] fetches the detail page of its
    polling place, extracts the address (Soup.v), writes one CSV row
    (Csv.v) and sleeps one second.  Every exception ends the run; the
    [with] statement closes the file on every exit path.

    The server is an environment [env]: its answer to a request may depend
    on everything the script did before (the trace of events), so the
    theorems hold for every server behaviour.  The script's state is the
    [world]: the contents of the output file and the trace of observable
    events (open, POST, GET, row written, sleep, close).  Module
    [ScraperFacts] proves the output invariant, the order of the counties,
    the protocol of effects (with the exceptions possible after a fetch)
    and, against a reader of the query string, that the detail URL carries
    the precinct's ids. *)

From Stdlib Require Import String Ascii List ZArith Bool Lia.
From Stdlib Require Import Floats.SpecFloat.
From S2P Require Import Prelude PyValue Soup Csv.
Import ListNotations.
Open Scope string_scope.

Module Scraper.
Import Py Soup Csv.

(** ** Constants (lines 11, 12, 14, 22) *)

Definition PRECINCT_LIST_URL : string := "https://vt.ncsbe.gov/PPLkup/LoadPrecincts/".

(** [PRECINCT_ADDR_URL % (cid, pid)] once both [%d] conversions are done. *)
Definition precinct_addr_url (cid pid : string) : string :=
  "https://vt.ncsbe.gov/PPLkup/PollingPlaceResult/?CountyID=" ++ cid ++ "&PollingPlaceID=" ++ pid.

(** [PRECINCT_ADDR_URL % (cid, pid)]: a [TypeError] when a value is not an
    integer. *)
Definition format_addr_url (cid pid : pyval) : res exn string :=
  c <-? fmt_d cid ;; p <-? fmt_d pid ;; Ok (precinct_addr_url c p).

Definition output_path : string := "nc_polling_places.csv".

Definition sentinel : string := "<Select a Precinct>".

(** Python's [range(a, b)]. *)
Definition range (a b : Z) : list Z :=
  map (fun n => a + Z.of_nat n)%Z (seq 0 (Z.to_nat (b - a))).

(** The county ids of line 18. *)
Definition county_ids : list Z := range 1 101.

(** ** The environment *)

(** What the script does that the outside world sees. *)
Inductive event : Type :=
| EvOpen (path : string)                 (** [open(path, 'w')], truncating *)
| EvPost (url : string) (county : Z)     (** [requests.post(url, {'CountyId': county})] *)
| EvGet (url : string)                   (** [requests.get(url)] *)
| EvWrite (fields : list string)         (** [fil.writerow(...)], by its field texts *)
| EvSleep                                (** [time.sleep(1.0)] *)
| EvClose.                               (** the [with] block closes the file *)

(** A POST either fails in transport or returns a status and a body, given
    as what [json.loads] makes of it. *)
Inductive post_response : Type :=
| PostFailed
| PostReply (status : Z) (body : json_body).

(** A GET either fails in transport or returns a status and the page,
    given as the tree [BeautifulSoup(content, 'html.parser')] builds;
    [None] for markup [html.parser] rejects (a fatal [AssertionError] in
    a declaration), on which BeautifulSoup raises [ParserRejectedMarkup]. *)
Inductive get_response : Type :=
| GetFailed
| GetReply (status : Z) (page : option (list node)).

(** The outside world: whether the output file can be opened, and the
    server's answers, as functions of the events so far and the request. *)
Record env : Type := Env {
  env_open : bool;
  env_post : list event -> Z -> post_response;
  env_get : list event -> string -> get_response
}.

(** ** The script's state *)

Record world : Type := World { w_file : string; w_trace : list event }.

Definition M (A : Type) : Type := stE world exn A.

Definition log (ev : event) (w : world) : world := World (w_file w) (w_trace w ++ [ev]).

Section Script.
Variable E : env.

(** [with open('nc_polling_places.csv', 'w', newline='') as csvfile:]. *)
Definition open_output : M unit :=
  fun w => if env_open E then (Ok tt, World EmptyString (w_trace w ++ [EvOpen output_path]))
           else (Err OSError, w).

Definition close_output : M unit := modify (log EvClose).

(** Line 19: the request is made, then its outcome is seen. *)
Definition post (i : Z) : M post_response :=
  fun w => (Ok (env_post E (w_trace w) i), log (EvPost PRECINCT_LIST_URL i) w).

(** Lines 19-20: [requests.post(...)] then [.json()]; the status code is
    not checked. *)
Definition load_precincts (i : Z) : M pyval :=
  r <- post i ;;
  match r with
  | PostFailed => raise ConnectionError
  | PostReply _ body => lift (json_result body)
  end.

Definition get (url : string) : M get_response :=
  fun w => (Ok (env_get E (w_trace w) url), log (EvGet url) w).

(** Lines 26-27: [requests.get(url)] and the parse of its content; the
    status code is not checked. *)
Definition fetch_page (url : string) : M (list node) :=
  r <- get url ;;
  match r with
  | GetFailed => raise ConnectionError
  | GetReply _ (Some page) => ret page
  | GetReply _ None => raise ParserRejectedMarkup
  end.

(** [fil.writerow(row)]: the row's text is appended to the file.  The
    disk is taken to accept every write: an [OSError] of [write] or of the
    final flush is not modelled (Prelude.v, Not modelled). *)
Definition write_row (row : list pyval) : M unit :=
  fun w => (Ok tt, World (w_file w ++ writerow row) (w_trace w ++ [EvWrite (map field_text row)])).

Definition sleep : M unit := modify (log EvSleep).

(** Lines 22-32: one precinct.  Python evaluates the subscripts in the
    order written: [Description], [PollingPlaceName], [CountyID] and
    [PollingPlaceID] for the URL, then (after the fetch) [CountyID],
    [Label] and [Description] for the row.  Line 28's [soup.find] has no
    effect and cannot fail. *)
Definition process_precinct (precinct : pyval) : M unit :=
  desc <- lift (getitem precinct "Description") ;;
  if py_eq_str desc sentinel then ret tt
  else
    place_name <- lift (getitem precinct "PollingPlaceName") ;;
    cid <- lift (getitem precinct "CountyID") ;;
    pid <- lift (getitem precinct "PollingPlaceID") ;;
    url <- lift (format_addr_url cid pid) ;;
    page <- fetch_page url ;;
    addr <- lift (place_addr page) ;;
    cid' <- lift (getitem precinct "CountyID") ;;
    label <- lift (getitem precinct "Label") ;;
    desc' <- lift (getitem precinct "Description") ;;
    write_row [cid'; label; desc'; place_name; PStr addr] ;;
    sleep.

(** Lines 19-32: one county. *)
Definition process_county (i : Z) : M unit :=
  v <- load_precincts i ;;
  precincts <- lift (py_iter v) ;;
  for_each precincts process_precinct.

(** Lines 14-32. *)
Definition main : M unit :=
  open_output ;;
  try_finally (for_each county_ids process_county) close_output.

End Script.

(** A run of the script from a file holding [old]. *)
Definition run (E : env) (old : string) : res exn unit * world :=
  main E (World old []).

End Scraper.

(** ** Properties of the pipeline *)

Module ScraperFacts.
Import Py Soup SoupFacts Csv CsvReader CsvFacts Scraper.
Local Open Scope list_scope.

(** The rows written, in order, by their field texts. *)
Fixpoint written (tr : list event) : list (list string) :=
  match tr with
  | [] => []
  | EvWrite fs :: tr' => fs :: written tr'
  | _ :: tr' => written tr'
  end.

(** The county ids posted, in order. *)
Fixpoint posted (tr : list event) : list Z :=
  match tr with
  | [] => []
  | EvPost _ i :: tr' => i :: posted tr'
  | _ :: tr' => posted tr'
  end.

Lemma written_app a b : written (a ++ b) = (written a ++ written b)%list.
Proof. induction a as [|[] a IH]; simpl; f_equal; auto. Qed.

Lemma posted_app a b : posted (a ++ b) = (posted a ++ posted b)%list.
Proof. induction a as [|[] a IH]; simpl; f_equal; auto. Qed.

Lemma concat_empty_app (l1 l2 : list string) :
  String.concat "" (l1 ++ l2) = (String.concat "" l1 ++ String.concat "" l2)%string.
Proof.
  induction l1 as [|x l1 IH]; [reflexivity|].
  cbn [app]. rewrite !concat_empty_cons, IH, append_assoc. reflexivity.
Qed.

(** The output invariant: the file holds exactly the rows of the
    [EvWrite] events, and no row's description is the placeholder. *)
Definition out_inv (w : world) : Prop :=
  w_file w = String.concat "" (map writerow_text (written (w_trace w))) /\
  Forall (fun fs => nth 2 fs "" <> sentinel) (written (w_trace w)).

Lemma out_inv_log ev w :
  (forall fs, ev <> EvWrite fs) -> out_inv w -> out_inv (log ev w).
Proof.
  intros Hev [Hf Hs]. unfold out_inv, log; simpl.
  assert (Hw : written [ev] = []) by (destruct ev; simpl; auto; exfalso; eapply Hev; reflexivity).
  rewrite written_app, Hw, app_nil_r. auto.
Qed.

Lemma not_sentinel_repr v : (forall s, v <> PStr s) -> py_repr v <> sentinel.
Proof.
  intros Hv. destruct v as [|[]|z|f|s|l|kvs]; simpl; try discriminate.
  - intros H. assert (Hc := all_chars_has_char _ "<" _ (PyFacts.int_str_chars z) eq_refl).
    rewrite H in Hc. discriminate.
  - intros H. assert (Hc := PyFacts.float_repr_no_lt f). rewrite H in Hc. discriminate.
  - exfalso. eapply Hv. reflexivity.
Qed.

(** The description text written for a value that is not the
    placeholder string is not the placeholder. *)
Lemma field_text_not_sentinel v : py_eq_str v sentinel = false -> field_text v <> sentinel.
Proof.
  intros Hv. destruct v as [| | | |s| |]; try (apply not_sentinel_repr; discriminate).
  - discriminate.
  - simpl in *. apply String.eqb_neq. exact Hv.
Qed.

Section Env.
Variable E : env.

Lemma out_inv_post i : preserves out_inv (post E i).
Proof. intros w Hw. apply out_inv_log; [discriminate|exact Hw]. Qed.

Lemma out_inv_get url : preserves out_inv (get E url).
Proof. intros w Hw. apply out_inv_log; [discriminate|exact Hw]. Qed.

Lemma out_inv_write row :
  nth 2 (map field_text row) "" <> sentinel -> preserves out_inv (write_row row).
Proof.
  intros Hrow w [Hf Hs]. unfold out_inv; simpl. rewrite written_app. simpl.
  rewrite map_app, concat_empty_app, <- Hf. simpl.
  split; [reflexivity|]. apply Forall_app. auto.
Qed.

Lemma out_inv_precinct p : preserves out_inv (process_precinct E p).
Proof.
  unfold process_precinct. apply preserves_bind_lift. intros desc Hdesc.
  destruct (py_eq_str desc sentinel) eqn:Hs; [apply preserves_ret|].
  unfold fetch_page. preserves_chain.
  - apply out_inv_get.
  - destruct a3 as [|? []]; preserves_chain.
  - apply out_inv_write. simpl. rewrite Hdesc in Ha6. injection Ha6 as <-.
    apply field_text_not_sentinel. exact Hs.
  - apply preserves_modify. intros w Hw. apply out_inv_log; [discriminate|exact Hw].
Qed.

Lemma out_inv_county i : preserves out_inv (process_county E i).
Proof.
  unfold process_county, load_precincts. preserves_chain.
  - apply out_inv_post.
  - destruct a as [|st b]; preserves_chain.
  - apply preserves_for_each. intros p _. apply out_inv_precinct.
Qed.

Lemma out_inv_run old : env_open E = true -> out_inv (snd (run E old)).
Proof.
  intros Hopen. unfold run, main, bind, open_output. rewrite Hopen.
  apply preserves_try_finally.
  - apply preserves_for_each. intros i _. apply out_inv_county.
  - apply preserves_modify. intros w Hw. apply out_inv_log; [discriminate|exact Hw].
  - split; [reflexivity|constructor].
Qed.

(** C2: whatever the server answers, and whether the run completes or
    stops on an exception, the output file read back with [csv.reader]
    gives exactly the rows the script wrote, in the order it wrote them:
    partial output left by a failed run is intact. *)
Theorem run_output_reads_back (old : string) :
  env_open E = true ->
  csv_read (w_file (snd (run E old))) = Ok (written (w_trace (snd (run E old)))).
Proof.
  intros Hopen. destruct (out_inv_run old Hopen) as [Hf _]. rewrite Hf. apply csv_read_rows.
Qed.

(** C1: no row of the output file has the placeholder description
    ["<Select a Precinct>"] as its third field, whatever the server sends
    (descriptions that are not strings included). *)
Theorem run_no_placeholder_row (old : string) (rows : list (list string)) :
  env_open E = true ->
  csv_read (w_file (snd (run E old))) = Ok rows ->
  Forall (fun fs => nth 2 fs "" <> sentinel) rows.
Proof.
  intros Hopen Hr. destruct (out_inv_run old Hopen) as [Hf Hrows].
  rewrite Hf, csv_read_rows in Hr. injection Hr as <-. exact Hrows.
Qed.

(** Only the county loop posts. *)
Definition no_post (ext : list event) : Prop := posted ext = [].

Lemma no_post_app a b : no_post a -> no_post b -> no_post (a ++ b).
Proof. unfold no_post. intros Ha Hb. rewrite posted_app, Ha, Hb. reflexivity. Qed.

Lemma no_post_log ev : (forall u i, ev <> EvPost u i) -> extends w_trace no_post (@modify world exn (log ev)).
Proof.
  intros Hev w. exists [ev]. split; [reflexivity|].
  destruct ev; try reflexivity. exfalso. eapply Hev. reflexivity.
Qed.

Lemma no_post_fetch url : extends w_trace no_post (fetch_page E url).
Proof.
  intros w. unfold fetch_page, bind, get. cbn [fst snd].
  destruct (env_get E (w_trace w) url) as [|? []]; exists [EvGet url]; split; reflexivity.
Qed.

Lemma no_post_write row : extends w_trace no_post (write_row row).
Proof. intros w. eexists. split; reflexivity. Qed.

Ltac no_post_chain :=
  repeat match goal with
         | |- extends _ _ (bind _ _) => apply extends_bind; [apply no_post_app| |intros ?]
         end;
  try first [ apply no_post_fetch | apply no_post_write
            | apply no_post_log; discriminate
            | apply extends_lift; reflexivity | apply extends_ret; reflexivity ].

Lemma no_post_precinct p : extends w_trace no_post (process_precinct E p).
Proof.
  unfold process_precinct.
  apply extends_bind; [apply no_post_app|apply extends_lift; reflexivity|intros desc].
  destruct (py_eq_str desc sentinel); [apply extends_ret; reflexivity|].
  no_post_chain.
Qed.

Lemma county_posts i w :
  exists ext, w_trace (snd (process_county E i w)) = w_trace w ++ EvPost PRECINCT_LIST_URL i :: ext
              /\ no_post ext.
Proof.
  unfold process_county, load_precincts, post, bind at 1 2. cbn [fst snd].
  set (w1 := log (EvPost PRECINCT_LIST_URL i) w).
  assert (Hw1 : w_trace w1 = w_trace w ++ [EvPost PRECINCT_LIST_URL i]) by reflexivity.
  assert (Hrest : forall m : M unit, extends w_trace no_post m ->
            exists ext, w_trace (snd (m w1)) = w_trace w ++ EvPost PRECINCT_LIST_URL i :: ext /\ no_post ext).
  { intros m Hm. destruct (Hm w1) as [ext [He Hp]]. exists ext. rewrite He, Hw1, <- app_assoc. auto. }
  destruct (env_post E (w_trace w) i) as [|st b]; [exists []; split; reflexivity|].
  destruct (json_result b) as [v|e]; [|exists []; split; reflexivity].
  refine (Hrest (bind (lift (py_iter v)) (fun l => for_each l (process_precinct E))) _).
  apply extends_bind; [apply no_post_app|apply extends_lift; reflexivity|intros l].
  apply extends_for_each; [reflexivity|apply no_post_app|apply no_post_precinct].
Qed.

(** The county loop posts a prefix of its list, and all of it when it
    completes. *)
Lemma loop_posts (l : list Z) w :
  exists ext k, w_trace (snd (for_each l (process_county E) w)) = w_trace w ++ ext /\
    posted ext = firstn k l /\
    (fst (for_each l (process_county E) w) = Ok tt -> k = length l).
Proof.
  revert w. induction l as [|i l IH]; intros w.
  - exists [], 0. rewrite app_nil_r. auto.
  - simpl for_each. unfold bind.
    destruct (county_posts i w) as [ext1 [H1 P1]].
    destruct (process_county E i w) as [[[]|e] w'] eqn:Hc; simpl in H1.
    + destruct (IH w') as (ext2 & k & H2 & P2 & K2).
      exists (EvPost PRECINCT_LIST_URL i :: ext1 ++ ext2), (S k).
      rewrite H2, H1, <- app_assoc. split; [reflexivity|]. split.
      * simpl. rewrite posted_app, P1, P2. reflexivity.
      * intros Hok. simpl. rewrite (K2 Hok). reflexivity.
    + exists (EvPost PRECINCT_LIST_URL i :: ext1), 1. simpl.
      rewrite H1. split; [reflexivity|]. split; [|discriminate].
      unfold no_post in P1. rewrite P1. reflexivity.
Qed.

Lemma county_ids_seq : county_ids = map Z.of_nat (seq 1 100).
Proof. vm_compute. reflexivity. Qed.

(** C4: the script requests the counties one after another, in the order
    1, 2, ..., 100 with no gap and no repeat: every run has posted a
    prefix of that sequence, and a run that completes has posted all of
    it. *)
Theorem run_posts_counties (old : string) :
  exists k, posted (w_trace (snd (run E old))) = firstn k (map Z.of_nat (seq 1 100)) /\
            (fst (run E old) = Ok tt -> k = 100%nat).
Proof.
  unfold run, main, bind, open_output.
  destruct (env_open E); [|exists 0%nat; split; [reflexivity|discriminate]].
  unfold try_finally, close_output, modify.
  cbv beta. cbn [w_trace]. change (@app event [] [EvOpen output_path]) with [EvOpen output_path].
  destruct (loop_posts county_ids (World "" [EvOpen output_path])) as (ext & k & Ht & Hp & Hk).
  destruct (for_each county_ids (process_county E) (World "" [EvOpen output_path])) as [r w'].
  cbn [fst snd w_trace] in Ht, Hk |- *. exists k. split.
  - unfold log. cbn [w_trace]. rewrite !posted_app, Ht, posted_app, Hp, county_ids_seq.
    simpl. rewrite app_nil_r. reflexivity.
  - intros Hr. rewrite (Hk Hr), county_ids_seq. reflexivity.
Qed.

(** A server that echoes the county asked for: every precinct of its
    reply to county [i] that has a [CountyID] has [CountyID = i]. *)
Definition echoes_county : Prop :=
  forall tr i st v ps p x,
    env_post E tr i = PostReply st (Decoded v) -> py_iter v = Ok ps -> In p ps ->
    getitem p "CountyID" = Ok x -> x = PInt i.

(** Every row written so far satisfies [R]. *)
Definition rows_ok (R : list string -> Prop) (w : world) : Prop := Forall R (written (w_trace w)).

(** What a precinct guarantees of the row it may write: [R] holds of the
    texts of its [CountyID], [Label], non-placeholder [Description],
    [PollingPlaceName] and any address. *)
Definition row_cond (R : list string -> Prop) (p : pyval) : Prop :=
  forall cid label desc name addr,
    getitem p "CountyID" = Ok cid -> getitem p "Label" = Ok label ->
    getitem p "Description" = Ok desc -> py_eq_str desc sentinel = false ->
    getitem p "PollingPlaceName" = Ok name ->
    R (map field_text [cid; label; desc; name; PStr addr]).

Lemma rows_ok_log R ev w : (forall fs, ev <> EvWrite fs) -> rows_ok R w -> rows_ok R (log ev w).
Proof.
  intros Hev Hw. unfold rows_ok, log. simpl. rewrite written_app.
  apply Forall_app. split; [exact Hw|]. destruct ev; simpl; auto. exfalso. eapply Hev. reflexivity.
Qed.

Lemma rows_ok_precinct R p : row_cond R p -> preserves (rows_ok R) (process_precinct E p).
Proof.
  intros Hp. unfold process_precinct. apply preserves_bind_lift. intros desc Hdesc.
  destruct (py_eq_str desc sentinel) eqn:Hs; [apply preserves_ret|].
  unfold fetch_page. preserves_chain.
  - intros w Hw. apply rows_ok_log; [discriminate|exact Hw].
  - destruct a3 as [|? []]; preserves_chain.
  - intros w Hw. unfold rows_ok. simpl. rewrite written_app. apply Forall_app.
    split; [exact Hw|]. constructor; [|constructor].
    rewrite Hdesc in Ha6. injection Ha6 as <-. eapply Hp; eassumption.
  - apply preserves_modify. intros w Hw. apply rows_ok_log; [discriminate|exact Hw].
Qed.

Lemma rows_ok_county R i :
  (forall tr st v ps p, env_post E tr i = PostReply st (Decoded v) -> py_iter v = Ok ps -> In p ps ->
     row_cond R p) ->
  preserves (rows_ok R) (process_county E i).
Proof.
  intros Hr w Hw. unfold process_county, load_precincts, post, bind at 1 2. cbn [fst snd].
  assert (Hw1 := rows_ok_log R (EvPost PRECINCT_LIST_URL i) w ltac:(discriminate) Hw).
  destruct (env_post E (w_trace w) i) as [|st [v| | |]] eqn:Hpost; try exact Hw1.
  unfold bind, lift, ret. cbn [json_result]. cbv beta iota. destruct (py_iter v) as [ps|e] eqn:Hiter; [|exact Hw1].
  apply (preserves_for_each (rows_ok R) ps); [|exact Hw1].
  intros p Hin. apply rows_ok_precinct. eapply Hr; eassumption.
Qed.

(** Every row written so far starts with a county id in [[1, 100]]. *)
Definition rows_in_range : world -> Prop :=
  rows_ok (fun fs => exists j, (1 <= j <= 100)%Z /\ hd "" fs = int_str j).

Lemma in_range_county i :
  echoes_county -> (1 <= i <= 100)%Z -> preserves rows_in_range (process_county E i).
Proof.
  intros Hecho Hi. apply rows_ok_county. intros tr st v ps p Hpost Hiter Hin cid label desc name addr Hc _ _ _ _.
  exists i. rewrite (Hecho _ _ _ _ _ _ _ Hpost Hiter Hin Hc). auto.
Qed.

(** A row invariant kept by every county's loop holds at the end of any
    run, completed or not (the file is closed on every path). *)
Lemma rows_ok_run R old :
  (forall i, In i county_ids -> preserves (rows_ok R) (process_county E i)) ->
  rows_ok R (snd (run E old)).
Proof.
  intros Hc. unfold run, main, bind at 1, open_output.
  destruct (env_open E); [|constructor].
  apply preserves_try_finally.
  - apply preserves_for_each. exact Hc.
  - apply preserves_modify. intros w Hw. apply rows_ok_log; [discriminate|exact Hw].
  - constructor.
Qed.

End Env.

(** ** The order of effects

    The spec (section 5) prescribes strictly sequential effects: the file
    is opened first; each county's request comes before its precincts'
    fetches; each written row comes right after the fetch of its detail
    page and is followed by the one-second sleep before anything else; the
    file is released on every exit path and nothing happens after.  The
    automaton below accepts exactly the traces of that shape. *)
Inductive phase : Type :=
| PhStart     (** nothing done yet *)
| PhOpened    (** the file is open, no county requested yet *)
| PhCounty    (** inside a county, between precincts *)
| PhFetched   (** a detail page was fetched, its row not yet written *)
| PhWritten   (** a row was written, the sleep not yet done *)
| PhClosed.   (** the file is closed *)

Definition proto_step (q : phase) (ev : event) : option phase :=
  match q, ev with
  | PhStart, EvOpen _ => Some PhOpened
  | (PhOpened | PhCounty), EvPost _ _ => Some PhCounty
  | PhCounty, EvGet _ => Some PhFetched
  | PhFetched, EvWrite _ => Some PhWritten
  | PhWritten, EvSleep => Some PhCounty
  | (PhOpened | PhCounty | PhFetched), EvClose => Some PhClosed
  | _, _ => None
  end.

Fixpoint proto_run (q : phase) (tr : list event) : option phase :=
  match tr with
  | [] => Some q
  | ev :: tr' => match proto_step q ev with
                 | Some q' => proto_run q' tr'
                 | None => None
                 end
  end.

Lemma proto_run_snoc q tr ev :
  proto_run q (tr ++ [ev]) = match proto_run q tr with
                             | Some q' => proto_step q' ev
                             | None => None
                             end.
Proof.
  revert q. induction tr as [|e tr IH]; intros q; simpl.
  - destruct (proto_step q ev); reflexivity.
  - destruct (proto_step q e); [apply IH|reflexivity].
Qed.

Definition at_phase (q : phase) (w : world) : Prop := proto_run PhStart (w_trace w) = Some q.

Lemma at_phase_log q ev q' w :
  proto_step q ev = Some q' -> at_phase q w -> at_phase q' (log ev w).
Proof. unfold at_phase, log. simpl. intros Hs Hw. rewrite proto_run_snoc, Hw. exact Hs. Qed.

(** [run] opens the file, then runs the county loop in the [with] block. *)
Lemma run_eq E old :
  run E old = if env_open E
              then try_finally (for_each county_ids (process_county E)) close_output
                               (World EmptyString [EvOpen output_path])
              else (Err OSError, World old []).
Proof. unfold run, main, bind, open_output. destruct (env_open E); reflexivity. Qed.

(** The exceptions that can end the run between the fetch of a detail
    page and its row: the fetch's transport failure, the parser's
    rejection of the page, the resolver's [AttributeError], and a missing
    [Label]. *)
Definition after_fetch_exn (e : exn) : Prop :=
  e = ConnectionError \/ e = ParserRejectedMarkup \/ e = AttributeError "p" \/
  e = AttributeError "a" \/ e = AttributeError "stripped_strings" \/ e = KeyError "Label".

(** Where an exception can leave the pipeline: between precincts, or
    after a fetch with one of [after_fetch_exn]. *)
Definition QEp (e : exn) (w : world) : Prop :=
  at_phase PhCounty w \/ (at_phase PhFetched w /\ after_fetch_exn e).

Section Protocol.
Variable E : env.

Lemma proto_fetch url :
  triple (at_phase PhCounty) (fetch_page E url) (fun _ => at_phase PhFetched) QEp.
Proof.
  intros w Hw. unfold fetch_page, bind, get. cbn [fst snd].
  assert (H := at_phase_log PhCounty (EvGet url) PhFetched w eq_refl Hw).
  destruct (env_get E (w_trace w) url) as [|? []]; simpl;
    [right; split; [exact H|left; reflexivity]|exact H|right; split; [exact H|right; left; reflexivity]].
Qed.

Lemma proto_write row :
  triple (at_phase PhFetched) (write_row row) (fun _ => at_phase PhWritten) QEp.
Proof. intros w Hw. exact (at_phase_log PhFetched (EvWrite (map field_text row)) PhWritten w eq_refl Hw). Qed.

Lemma proto_sleep :
  triple (at_phase PhWritten) sleep (fun _ => at_phase PhCounty) QEp.
Proof. intros w Hw. exact (at_phase_log PhWritten EvSleep PhCounty w eq_refl Hw). Qed.

Ltac proto_keep :=
  apply triple_lift_keep; intros ? ? ?; unfold QEp; tauto.

(** A pure step before the fetch: its exception leaves between precincts. *)
Ltac proto_before_fetch H :=
  apply triple_bind_lift; [intros ? _ ? ?; left; assumption|intros ? H].

(** A pure step after the fetch raising [e]. *)
Lemma proto_after_fetch e w : at_phase PhFetched w -> after_fetch_exn e -> QEp e w.
Proof. intros Hw He. right. auto. Qed.

(** After the fetch, the second reads of [CountyID] and [Description]
    find what the first found, and [Label] can only be missing. *)
Lemma proto_precinct p :
  triple (at_phase PhCounty) (process_precinct E p) (fun _ => at_phase PhCounty) QEp.
Proof.
  unfold process_precinct.
  proto_before_fetch Hdesc.
  destruct (py_eq_str _ sentinel); [intros w Hw; exact Hw|].
  proto_before_fetch Hname. proto_before_fetch Hcid. proto_before_fetch Hpid. proto_before_fetch Hurl.
  eapply triple_bind; [apply proto_fetch|intros page].
  apply triple_bind_lift; [|intros addr _].
  { intros e He w Hw. apply proto_after_fetch; [exact Hw|].
    destruct (place_addr_err _ _ He) as [ -> | [ -> | -> ] ]; unfold after_fetch_exn; tauto. }
  rewrite Hcid. apply triple_bind_lift; [discriminate|intros cid' _].
  apply triple_bind_lift; [|intros label _].
  { intros e He w Hw. apply proto_after_fetch; [exact Hw|].
    rewrite (PyFacts.getitem_other_key _ _ _ _ _ Hdesc He). unfold after_fetch_exn. tauto. }
  rewrite Hdesc. apply triple_bind_lift; [discriminate|intros desc' _].
  eapply triple_bind; [apply proto_write|intros u].
  apply proto_sleep.
Qed.

Definition between_counties (w : world) : Prop := at_phase PhOpened w \/ at_phase PhCounty w.

Lemma proto_county i :
  triple between_counties (process_county E i) (fun _ => between_counties) QEp.
Proof.
  unfold process_county, load_precincts.
  eapply triple_bind with (Q := fun _ => at_phase PhCounty).
  - eapply triple_bind with (Q := fun _ => at_phase PhCounty).
    + intros w [Hw|Hw]; [exact (at_phase_log PhOpened (EvPost PRECINCT_LIST_URL i) PhCounty w eq_refl Hw)
                        |exact (at_phase_log PhCounty (EvPost PRECINCT_LIST_URL i) PhCounty w eq_refl Hw)].
    + intros [|st [v| | |]]; intros w Hw; simpl; unfold QEp; auto.
  - intros v. eapply triple_bind; [proto_keep|intros l].
    eapply triple_weaken; [exact (fun _ H => H)| |exact (fun _ _ H => H)|].
    + intros a w Hw. right. exact Hw.
    + apply triple_for_each. intros p _. apply proto_precinct.
Qed.

End Protocol.

(** The spec's scenario (section 8): county 3 returns a real precinct and
    the placeholder; every other county returns no precinct; every detail
    page is [scenario_page]. *)
Definition oak_grove : pyval :=
  PDict [("CountyID", PInt 3); ("PollingPlaceID", PInt 12);
         ("PollingPlaceName", PStr "Oak Grove Fire Station");
         ("Label", PStr "01"); ("Description", PStr "Oak Grove")].

Definition placeholder : pyval :=
  PDict [("CountyID", PInt 3); ("PollingPlaceID", PInt 0); ("PollingPlaceName", PStr "");
         ("Label", PStr "-"); ("Description", PStr sentinel)].

Definition scenario_env : env :=
  Env true
      (fun _ i => if Z.eqb i 3 then PostReply 200 (Decoded (PList [oak_grove; placeholder]))
                  else PostReply 200 (Decoded (PList [])))
      (fun _ _ => GetReply 200 (Some scenario_page)).

Lemma run_output_reads_back_witness :
  csv_read (w_file (snd (run scenario_env ""))) = Ok (written (w_trace (snd (run scenario_env "")))).
Proof. apply run_output_reads_back. reflexivity. Defined.

Lemma run_no_placeholder_row_witness :
  Forall (fun fs => nth 2 fs "" <> sentinel)
    [["3"; "01"; "Oak Grove"; "Oak Grove Fire Station"; "123 Main St, Oak Grove, NC 27565"]].
Proof. apply (run_no_placeholder_row scenario_env ""); [reflexivity|vm_compute; reflexivity]. Defined.

(** C15: if the server echoes the county it is asked for, every row of
    the output starts with a county id between 1 and 100. *)
Theorem run_county_ids_in_range (E : env) (old : string) :
  echoes_county E ->
  Forall (fun fs => exists j, (1 <= j <= 100)%Z /\ hd "" fs = int_str j)
    (written (w_trace (snd (run E old)))).
Proof.
  intros Hecho. apply rows_ok_run. intros i Hi. apply in_range_county; [exact Hecho|].
  rewrite county_ids_seq in Hi. apply in_map_iff in Hi as [n [<- Hn]].
  apply in_seq in Hn. lia.
Qed.

(** C5: every run follows the prescribed order of effects: when the file
    can be opened, the trace is accepted by the automaton and ends in
    [PhClosed], so the file is opened first, each row is written right
    after the fetch of its detail page and followed by the sleep, and the
    file is closed on every exit path, normal or exceptional, with nothing
    after; when it cannot be opened, nothing at all happens. *)
Theorem run_protocol (E : env) (old : string) :
  proto_run PhStart (w_trace (snd (run E old))) =
  Some (if env_open E then PhClosed else PhStart).
Proof.
  unfold run, main, bind at 1, open_output. destruct (env_open E); [|reflexivity].
  set (w0 := World "" (w_trace (World old []) ++ [EvOpen output_path])).
  assert (H0 : between_counties w0) by (left; reflexivity).
  assert (Hloop := triple_for_each between_counties county_ids (process_county E) QEp
                     (fun i _ => proto_county E i)).
  assert (Hfin : triple (fun s => (exists a : unit, between_counties s) \/ (exists e, QEp e s))
                   (close_output) (fun _ => at_phase PhClosed) (fun _ => at_phase PhClosed)).
  { intros w [[_ [Hw|Hw]]|[_ [Hw|[Hw _]]]];
      [exact (at_phase_log PhOpened EvClose PhClosed w eq_refl Hw)
      |exact (at_phase_log PhCounty EvClose PhClosed w eq_refl Hw)
      |exact (at_phase_log PhCounty EvClose PhClosed w eq_refl Hw)
      |exact (at_phase_log PhFetched EvClose PhClosed w eq_refl Hw)]. }
  specialize (triple_try_finally _ _ _ _ _ _ Hloop Hfin w0 H0). unfold at_phase.
  destruct (try_finally _ _ w0) as [[] w']; auto.
Qed.

(** C11: a run stops right after the GET of a detail page (the file is
    closed next) only with the GET's [ConnectionError], the parser's
    [ParserRejectedMarkup], the resolver's [AttributeError] on [p], [a] or
    [stripped_strings], or [KeyError 'Label']: line 31's second reads of
    [CountyID] and
    [Description] cannot fail, and a precinct without [Label] is only
    found out after its page has been fetched. *)
Theorem run_error_after_fetch (E : env) (old : string) (e : exn) (a : list event) (u : string) :
  fst (run E old) = Err e -> w_trace (snd (run E old)) = (a ++ [EvGet u; EvClose])%list ->
  after_fetch_exn e.
Proof.
  rewrite run_eq. destruct (env_open E); [|intros _ Ht; simpl in Ht; destruct a; discriminate].
  set (w0 := World "" [EvOpen output_path]).
  assert (Hloop := triple_for_each between_counties county_ids (process_county E) QEp
                     (fun i _ => proto_county E i)).
  assert (Hfin : forall e', triple (QEp e') close_output
             (fun _ w => exists w1, QEp e' w1 /\ w_trace w = (w_trace w1 ++ [EvClose])%list)
             (fun _ _ => False)).
  { intros e' w Hw. exists w. split; [exact Hw|reflexivity]. }
  assert (H := triple_try_finally_keep _ _ _ _ close_output (fun _ _ => True) _ Hloop
                 (fun _ w _ => I) Hfin w0 (or_introl eq_refl)).
  destruct (try_finally _ _ w0) as [[[]|e'] w']; [discriminate|]. cbn [fst snd].
  intros [= ->] Ht. destruct H as [w1 [Hq Hw']]. rewrite Hw' in Ht.
  assert (Hw1 : w_trace w1 = (a ++ [EvGet u])%list).
  { apply app_inj_tail with (a := EvClose) (b := EvClose). rewrite Ht, <- app_assoc. reflexivity. }
  destruct Hq as [Hc|[_ Hf]]; [exfalso|exact Hf].
  unfold at_phase in Hc. rewrite Hw1, proto_run_snoc in Hc.
  destruct (proto_run PhStart a) as [[]|]; simpl in Hc; discriminate.
Qed.

(** ** The detail URL as endpoint B reads it

    Endpoint B takes the county and polling place ids as query parameters
    (spec, section 6): the query after the path is split at [&], each
    parameter at its first [=], and the two values are read as
    integers. *)

Definition detail_path : string := "https://vt.ncsbe.gov/PPLkup/PollingPlaceResult/?".

Definition query_params (u : string) : option (list (string * string)) :=
  option_map (fun q => map (break_at "=") (split_on "&" q)) (strip_prefix detail_path u).

Definition query_int (k : string) (ps : list (string * string)) : option Z :=
  match dict_get k ps with
  | Some v => PyFacts.dec_int v
  | None => None
  end.

(** The county and polling place ids a detail URL asks for. *)
Definition read_addr_url (u : string) : option (Z * Z) :=
  match query_params u with
  | Some ps => match query_int "CountyID" ps, query_int "PollingPlaceID" ps with
               | Some c, Some q => Some (c, q)
               | _, _ => None
               end
  | None => None
  end.

Lemma precinct_addr_url_split c q :
  precinct_addr_url c q =
  (detail_path ++ ("CountyID" ++ String "=" c) ++ String "&" ("PollingPlaceID" ++ String "=" q))%string.
Proof. reflexivity. Qed.

Lemma int_str_free c z : PyFacts.is_int_char c = false -> has_char c (int_str z) = false.
Proof. intros Hc. exact (all_chars_has_char _ c _ (PyFacts.int_str_chars z) Hc). Qed.

Lemma read_addr_url_ints zc zq : read_addr_url (precinct_addr_url (int_str zc) (int_str zq)) = Some (zc, zq).
Proof.
  rewrite precinct_addr_url_split. unfold read_addr_url, query_params.
  rewrite strip_prefix_app. cbn [option_map].
  rewrite split_on_sep, split_on_free by (rewrite has_char_app; apply int_str_free; reflexivity).
  cbn [map]. rewrite !break_at_sep by reflexivity.
  unfold query_int. simpl. rewrite !PyFacts.dec_int_str. reflexivity.
Qed.

(** C14: the detail request asks endpoint B for the precinct's own ids,
    each under its own name: whenever line 26 builds a URL, its
    parameters [CountyID] and [PollingPlaceID] read back as the integers
    ['%d'] took from the precinct's [CountyID] and [PollingPlaceID] (a
    bool as 0 or 1, a float truncated). *)
Theorem addr_url_reads_back (cid pid : pyval) (url : string) :
  format_addr_url cid pid = Ok url ->
  exists c q, d_int cid = Ok c /\ d_int pid = Ok q /\ read_addr_url url = Some (c, q).
Proof.
  unfold format_addr_url. destruct (fmt_d cid) as [sc|] eqn:Hc; [|discriminate]. cbn [res_bind].
  destruct (fmt_d pid) as [sq|] eqn:Hq; [|discriminate]. intros [= <-].
  destruct (PyFacts.fmt_d_ok _ _ Hc) as [c [Hc' ->]], (PyFacts.fmt_d_ok _ _ Hq) as [q [Hq' ->]].
  exists c, q. repeat split; [exact Hc'|exact Hq'|apply read_addr_url_ints].
Qed.

(** [12.0], as [3 * 2^2]. *)
Definition twelve : spec_float := S754_finite false 3 2.

Lemma addr_url_reads_back_witness :
  exists c q, d_int (PInt 3) = Ok c /\ d_int (PFloat twelve) = Ok q /\
              read_addr_url (precinct_addr_url "3" "12") = Some (c, q).
Proof. apply addr_url_reads_back. reflexivity. Defined.

(** A server whose precinct has no [Label]. *)
Definition no_label_env : env :=
  Env true
      (fun _ i => if Z.eqb i 3
                  then PostReply 200 (Decoded (PList [PDict [("CountyID", PInt 3); ("PollingPlaceID", PInt 12);
                         ("PollingPlaceName", PStr "Oak Grove Fire Station");
                         ("Description", PStr "Oak Grove")]]))
                  else PostReply 200 (Decoded (PList [])))
      (fun _ _ => GetReply 200 (Some scenario_page)).

Lemma run_error_after_fetch_witness : after_fetch_exn (KeyError "Label").
Proof.
  apply (run_error_after_fetch no_label_env "" (KeyError "Label")
           [EvOpen output_path; EvPost PRECINCT_LIST_URL 1; EvPost PRECINCT_LIST_URL 2;
            EvPost PRECINCT_LIST_URL 3] (precinct_addr_url "3" "12")); vm_compute; reflexivity.
Defined.

Lemma scenario_echoes : echoes_county scenario_env.
Proof.
  intros tr i st v ps p x Hpost Hiter Hin Hx. simpl in Hpost.
  destruct (Z.eqb_spec i 3) as [->|Hi]; injection Hpost as _ <-; injection Hiter as <-;
    simpl in Hin; [|contradiction].
  destruct Hin as [<-|[<-|[]]]; injection Hx as <-; reflexivity.
Qed.

Lemma run_county_ids_in_range_witness :
  Forall (fun fs => exists j, (1 <= j <= 100)%Z /\ hd "" fs = int_str j)
    (written (w_trace (snd (run scenario_env "")))).
Proof. apply run_county_ids_in_range. exact scenario_echoes. Defined.

End ScraperFacts.
