(* ===== verification/Agree.v ===== *)
(** * Servers that answer alike, and what the script reads of an answer

    The script looks at a reply only through what [requests] and
    [response.json()] make of it: lines 19-20 raise on a failed request or
    a body [.json()] cannot decode and otherwise use the decoded value, lines
    26-27 raise on a failed request or a page the parser rejects and
    otherwise use the parse tree; the
    status code is read nowhere.  Module [Agree] makes this precise: two
    servers [agree] when they give the same outcome to every request after
    every history, [agree] is an equivalence, and [run] respects it
    ([Proper] instance), so any server can be replaced by an agreeing one
    by setoid rewriting.  In particular the status codes of all replies
    can be changed without changing the run. *)

From Stdlib Require Import String List ZArith Morphisms Setoid.
From S2P Require Import Prelude.
From S2P Require Import PyValue.
From S2P Require Import Soup.
From S2P Require Import Scraper.
Import ListNotations.

Module Agree.
Import Py Soup Scraper.

(** What lines 19-20 make of a reply. *)
Definition post_outcome (r : post_response) : res exn pyval :=
  match r with
  | PostFailed => Err ConnectionError
  | PostReply _ body => json_result body
  end.

(** What lines 26-27 make of a reply. *)
Definition get_outcome (r : get_response) : res exn (list node) :=
  match r with
  | GetFailed => Err ConnectionError
  | GetReply _ (Some page) => Ok page
  | GetReply _ None => Err ParserRejectedMarkup
  end.

Definition agree (E1 E2 : env) : Prop :=
  env_open E1 = env_open E2 /\
  (forall tr i, post_outcome (env_post E1 tr i) = post_outcome (env_post E2 tr i)) /\
  (forall tr url, get_outcome (env_get E1 tr url) = get_outcome (env_get E2 tr url)).

#[export] Instance agree_Equivalence : Equivalence agree.
Proof.
  split.
  - intros E. repeat split; reflexivity.
  - intros E1 E2 (Ho & Hp & Hg). repeat split; intros; symmetry; auto.
  - intros E1 E2 E3 (Ho1 & Hp1 & Hg1) (Ho2 & Hp2 & Hg2).
    repeat split; intros; [congruence|rewrite Hp1; apply Hp2|rewrite Hg1; apply Hg2].
Qed.

Lemma load_precincts_outcome E i w :
  load_precincts E i w = (post_outcome (env_post E (w_trace w) i), log (EvPost PRECINCT_LIST_URL i) w).
Proof. unfold load_precincts, post, bind. cbn. destruct (env_post E (w_trace w) i) as [|? []]; reflexivity. Qed.

Lemma fetch_page_outcome E url w :
  fetch_page E url w = (get_outcome (env_get E (w_trace w) url), log (EvGet url) w).
Proof. unfold fetch_page, get, bind. cbn. destruct (env_get E (w_trace w) url) as [|? []]; reflexivity. Qed.

Section Agreeing.
Variables E1 E2 : env.
Hypothesis H : agree E1 E2.

Lemma open_agree : stE_eq (open_output E1) (open_output E2).
Proof. intros w. unfold open_output. rewrite (proj1 H). reflexivity. Qed.

Lemma load_agree i : stE_eq (load_precincts E1 i) (load_precincts E2 i).
Proof. intros w. rewrite !load_precincts_outcome, (proj1 (proj2 H)). reflexivity. Qed.

Lemma fetch_agree url : stE_eq (fetch_page E1 url) (fetch_page E2 url).
Proof. intros w. rewrite !fetch_page_outcome, (proj2 (proj2 H)). reflexivity. Qed.

Lemma precinct_agree p : stE_eq (process_precinct E1 p) (process_precinct E2 p).
Proof. unfold process_precinct. stE_congr ltac:(apply fetch_agree). Qed.

Lemma county_agree i : stE_eq (process_county E1 i) (process_county E2 i).
Proof. unfold process_county. stE_congr ltac:(apply load_agree || apply precinct_agree). Qed.

Lemma main_agree : stE_eq (main E1) (main E2).
Proof. unfold main. stE_congr ltac:(apply open_agree || apply county_agree). Qed.

End Agreeing.

(** The run depends on the server only through the outcomes of its
    answers. *)
#[export] Instance run_proper : Proper (agree ==> eq ==> eq) run.
Proof. intros E1 E2 H old _ <-. apply (main_agree E1 E2 H). Qed.

(** The server with every status code replaced by 200. *)
Definition forget_status (E : env) : env :=
  Env (env_open E)
      (fun tr i => match env_post E tr i with
                   | PostReply _ b => PostReply 200 b
                   | PostFailed => PostFailed
                   end)
      (fun tr url => match env_get E tr url with
                     | GetReply _ page => GetReply 200 page
                     | GetFailed => GetFailed
                     end).

Lemma forget_status_agree E : agree (forget_status E) E.
Proof.
  repeat split; intros; cbn;
    [destruct (env_post E tr i)|destruct (env_get E tr url)]; reflexivity.
Qed.

(** C7: no status code of any reply, to the precinct-list POST or to a
    detail GET, changes the run: the server with every status replaced by
    200 gives the same result, file and trace.  The spec (4.2, 7) treats
    a non-2xx reply as a transport error; the code does not. *)
Theorem run_ignores_status_codes (E : env) (old : string) :
  run (forget_status E) old = run E old.
Proof. rewrite (forget_status_agree E). reflexivity. Qed.

End Agree.
