(* ===== verification/RowSpec.v ===== *)
(** * What the script writes, as a pure specification, and its refinement

    Module [RowSpec] states, without the monad, the world or the trace,
    which rows the script produces: for each county id in order, the
    decoded reply's precincts in order, skipping the placeholder, each
    giving the row [[CountyID; Label; Description; PollingPlaceName;
    address]]; the first exception of any step is the result.  It reads
    the server as a function of the request alone ([stateless]).

    Module [RowRefinement] proves that [Scraper.run] implements it: on a
    server whose answers do not depend on the history, the run's result
    is the specification's (same exception, or success), and on success
    the file holds exactly the specified rows in CSV. *)

From Stdlib Require Import String Ascii List ZArith Bool Lia.
From S2P Require Import Prelude.
From S2P Require Import PyValue.
From S2P Require Import Soup.
From S2P Require Import Csv.
From S2P Require Import Scraper.
From S2P Require Import Agree.
Import ListNotations.

Module RowSpec.
Import Py Soup Csv Scraper Agree.

(** [concat(f(x) for x in l)], the first exception ending the traversal. *)
Fixpoint concat_mapM {A B} (f : A -> res exn (list B)) (l : list A) : res exn (list B) :=
  match l with
  | [] => Ok []
  | x :: l' => ys <-? f x ;; zs <-? concat_mapM f l' ;; Ok (ys ++ zs)%list
  end.

Section Spec.
Variable E : env.

(** The server answers a request the same way whatever came before. *)
Definition stateless : Prop :=
  (forall tr i, env_post E tr i = env_post E [] i) /\
  (forall tr url, env_get E tr url = env_get E [] url).

Definition precinct_list (i : Z) : res exn pyval := post_outcome (env_post E [] i).

Definition detail_page (url : string) : res exn (list node) := get_outcome (env_get E [] url).

(** The rows one precinct contributes: none for the placeholder, else one. *)
Definition precinct_rows (p : pyval) : res exn (list (list string)) :=
  desc <-? getitem p "Description" ;;
  if py_eq_str desc sentinel then Ok []
  else
    name <-? getitem p "PollingPlaceName" ;;
    cid <-? getitem p "CountyID" ;;
    pid <-? getitem p "PollingPlaceID" ;;
    url <-? format_addr_url cid pid ;;
    page <-? detail_page url ;;
    addr <-? place_addr page ;;
    cid' <-? getitem p "CountyID" ;;
    label <-? getitem p "Label" ;;
    desc' <-? getitem p "Description" ;;
    Ok [map field_text [cid'; label; desc'; name; PStr addr]].

Definition county_rows (i : Z) : res exn (list (list string)) :=
  v <-? precinct_list i ;; ps <-? py_iter v ;; concat_mapM precinct_rows ps.

Definition expected_rows : res exn (list (list string)) :=
  concat_mapM county_rows county_ids.

End Spec.
End RowSpec.

Module RowRefinement.
Import Py Soup Csv CsvReader CsvFacts Scraper ScraperFacts Agree RowSpec.

(** [m] implements the specified result [r]: it returns [r]'s exception,
    or succeeds when [r] does and then appends the text of [r]'s rows to
    the file. *)
Definition impl (m : M unit) (r : res exn (list (list string))) : Prop :=
  forall w, fst (m w) = res_bind r (fun _ => Ok tt) /\
            forall rows, r = Ok rows ->
              w_file (snd (m w)) = (w_file w ++ String.concat "" (map writerow_text rows))%string.

Lemma impl_ret : impl (ret tt) (Ok []).
Proof.
  intros w. split; [reflexivity|]. intros rows H. injection H as <-.
  symmetry. apply append_nil_r.
Qed.

Lemma impl_lift_bind {A} (r : res exn A) (k : A -> M unit) f :
  (forall x, impl (k x) (f x)) -> impl (bind (lift r) k) (res_bind r f).
Proof. intros H w. destruct r as [x|e]; [apply H|]. split; [reflexivity|discriminate]. Qed.

Lemma impl_seq m1 r1 m2 r2 :
  impl m1 r1 -> impl m2 r2 ->
  impl (m1 ;; m2) (ys <-? r1 ;; zs <-? r2 ;; Ok (ys ++ zs)%list).
Proof.
  intros H1 H2 w. destruct (H1 w) as [Hr Hf]. unfold bind.
  destruct (m1 w) as [[u|e] w'], r1 as [ys|e1]; simpl in *; try discriminate.
  - destruct (H2 w') as [Hr2 Hf2]. split.
    + rewrite Hr2. destruct r2; reflexivity.
    + intros rows H. destruct r2 as [zs|]; [|discriminate]. injection H as <-.
      rewrite (Hf2 zs eq_refl), (Hf ys eq_refl), map_app, concat_empty_app.
      apply append_assoc.
  - split; [exact Hr|discriminate].
Qed.

Lemma impl_for_each {X} (l : list X) (f : X -> M unit) g :
  (forall x, impl (f x) (g x)) -> impl (for_each l f) (concat_mapM g l).
Proof.
  intros H. induction l as [|x l IH]; [apply impl_ret|]. exact (impl_seq _ _ _ _ (H x) IH).
Qed.

Section Stateless.
Variable E : env.
Hypothesis HE : stateless E.

Lemma impl_load_bind i (k : pyval -> M unit) f :
  (forall v, impl (k v) (f v)) -> impl (bind (load_precincts E i) k) (res_bind (precinct_list E i) f).
Proof.
  intros H w. unfold bind. rewrite load_precincts_outcome, (proj1 HE). unfold precinct_list.
  destruct (post_outcome _) as [v|e]; [exact (H v (log (EvPost PRECINCT_LIST_URL i) w))|split; [reflexivity|discriminate]].
Qed.

Lemma impl_fetch_bind url (k : list node -> M unit) f :
  (forall pg, impl (k pg) (f pg)) -> impl (bind (fetch_page E url) k) (res_bind (detail_page E url) f).
Proof.
  intros H w. unfold bind. rewrite fetch_page_outcome, (proj2 HE). unfold detail_page.
  destruct (get_outcome _) as [pg|e]; [exact (H pg (log (EvGet url) w))|split; [reflexivity|discriminate]].
Qed.

Lemma impl_write_sleep row : impl (write_row row ;; sleep) (Ok [map field_text row]).
Proof.
  intros w. split; [reflexivity|]. intros rows H. injection H as <-. reflexivity.
Qed.

Lemma impl_precinct p : impl (process_precinct E p) (precinct_rows E p).
Proof.
  unfold process_precinct, precinct_rows. apply impl_lift_bind. intros desc.
  destruct (py_eq_str desc sentinel); [apply impl_ret|].
  do 4 (apply impl_lift_bind; intros ?). apply impl_fetch_bind. intros pg.
  do 4 (apply impl_lift_bind; intros ?). apply impl_write_sleep.
Qed.

Lemma impl_county i : impl (process_county E i) (county_rows E i).
Proof.
  apply impl_load_bind. intros v. apply impl_lift_bind. intros ps.
  apply impl_for_each, impl_precinct.
Qed.

End Stateless.

(** C6: on a server whose answers do not depend on the history of
    requests, the script implements the pure specification: the run ends
    with the specification's exception or succeeds exactly when it does,
    and then the output file is the CSV text of the specified rows, so
    that [csv.reader] reads back exactly those rows. *)
Theorem run_implements_spec (E : env) (old : string) :
  env_open E = true -> stateless E ->
  fst (run E old) = res_bind (expected_rows E) (fun _ => Ok tt) /\
  forall rows, expected_rows E = Ok rows ->
    w_file (snd (run E old)) = String.concat "" (map writerow_text rows) /\
    csv_read (w_file (snd (run E old))) = Ok rows.
Proof.
  intros Hopen HE. unfold run, main, open_output, bind, try_finally. rewrite Hopen.
  set (w0 := World EmptyString _).
  destruct (impl_for_each county_ids (process_county E) (county_rows E) (impl_county E HE) w0)
    as [Hr Hf].
  destruct (for_each county_ids (process_county E) w0) as [r w'].
  split; [exact Hr|]. intros rows Hrows.
  assert (Hfile : w_file w' = String.concat "" (map writerow_text rows)) by exact (Hf rows Hrows).
  cbn. rewrite Hfile. split; [reflexivity|apply csv_read_rows].
Qed.

Lemma scenario_stateless : stateless scenario_env.
Proof. split; reflexivity. Qed.

Lemma run_implements_spec_witness :
  fst (run scenario_env "") = res_bind (expected_rows scenario_env) (fun _ => Ok tt).
Proof. apply (run_implements_spec scenario_env ""); [reflexivity|exact scenario_stateless]. Defined.

End RowRefinement.
