(* ===== verification/Progress.v ===== *)
(** * Progress and the shape of the output

    Module [Progress] states the contract of the two endpoints (spec,
    section 6) as a record of obligations on the server, [serves_well]:
    the output file opens, every county's reply is a JSON list of
    precincts that either are the placeholder or carry every field the
    script reads (with ids ['%d'] accepts), and every detail page has the
    container, paragraph and link the resolver walks.  Under that contract
    the run completes: no exception is raised (liveness).  Whatever the
    server, the number of detail requests is bounded by the county range
    and the sizes of the replies. *)

From Stdlib Require Import String List ZArith Bool Lia.
From S2P Require Import Prelude.
From S2P Require Import PyValue.
From S2P Require Import Soup.
From S2P Require Import Csv.
From S2P Require Import Scraper.
From S2P Require Import Agree.
Import ListNotations.

Module Progress.
Import Py Soup Csv CsvReader CsvFacts Scraper ScraperFacts Agree.

(** ** The endpoints' contract *)

Definition has_key (p : pyval) (k : string) : bool :=
  match getitem p k with Ok _ => true | Err _ => false end.

(** The two ids format with [%d] into the detail URL. *)
Definition url_ok (p : pyval) : bool :=
  match getitem p "CountyID", getitem p "PollingPlaceID" with
  | Ok c, Ok q => match format_addr_url c q with Ok _ => true | Err _ => false end
  | _, _ => false
  end.

(** A precinct the loop body of lines 22-32 handles without raising. *)
Definition precinct_ok (p : pyval) : bool :=
  match getitem p "Description" with
  | Ok d => py_eq_str d sentinel || (has_key p "PollingPlaceName" && url_ok p && has_key p "Label")
  | Err _ => false
  end.

(** A detail page line 30 resolves. *)
Definition page_ok (page : list node) : bool :=
  match place_addr page with Ok _ => true | Err _ => false end.

Record serves_well (E : env) : Prop := {
  sw_open : env_open E = true;
  sw_post : forall tr i, exists ps,
      post_outcome (env_post E tr i) = Ok (PList ps) /\ forallb precinct_ok ps = true;
  sw_get : forall tr url, exists page,
      get_outcome (env_get E tr url) = Ok page /\ page_ok page = true
}.

(** ** Completion *)

Definition completes (m : M unit) : Prop := forall w, exists w', m w = (Ok tt, w').

Lemma completes_for_each {X} (l : list X) (f : X -> M unit) :
  (forall x, In x l -> completes (f x)) -> completes (for_each l f).
Proof.
  induction l as [|x l IH]; intros H w; [eexists; reflexivity|].
  destruct (H x (or_introl eq_refl) w) as [w1 H1]. simpl.
  rewrite (bind_step_ok _ _ _ _ _ H1). apply IH. intros y Hy. apply H. right. exact Hy.
Qed.

(** Read a [has_key] or [url_ok] fact as the subscriptions it stands for. *)
Ltac key_facts :=
  repeat match goal with
  | H : (_ && _)%bool = true |- _ => apply andb_prop in H as [? ?]
  | H : has_key ?p ?k = true |- _ =>
      unfold has_key in H; destruct (getitem p k) eqn:?; [clear H|discriminate H]
  | H : url_ok ?p = true |- _ =>
      unfold url_ok in H; destruct (getitem p "CountyID") eqn:?; [|discriminate H];
      destruct (getitem p "PollingPlaceID") eqn:?; [|discriminate H];
      destruct (format_addr_url _ _) eqn:?; [clear H|discriminate H]
  end.

Section Server.
Variable E : env.
Hypothesis HE : serves_well E.

Lemma completes_precinct p : precinct_ok p = true -> completes (process_precinct E p).
Proof.
  unfold precinct_ok. intros Hp w. unfold process_precinct.
  destruct (getitem p "Description") as [d|] eqn:Hd; [|discriminate]. rewrite bind_lift_ok.
  destruct (py_eq_str d sentinel); [eexists; reflexivity|]. simpl in Hp. key_facts.
  repeat rewrite bind_lift_ok.
  match goal with H : format_addr_url _ _ = Ok ?u |- _ => rewrite H, bind_lift_ok;
    destruct (sw_get E HE (w_trace w) u) as [pg [Hg Hpg]];
    rewrite (bind_step_ok _ _ _ pg (log (EvGet u) w)) by (rewrite fetch_page_outcome, Hg; reflexivity)
  end.
  unfold page_ok in Hpg. destruct (place_addr pg) eqn:Ha; [|discriminate].
  repeat rewrite bind_lift_ok. eexists. reflexivity.
Qed.

Lemma completes_county i : completes (process_county E i).
Proof.
  intros w. destruct (sw_post E HE (w_trace w) i) as [ps [Hp Hok]]. unfold process_county.
  rewrite (bind_step_ok _ _ _ (PList ps) (log (EvPost PRECINCT_LIST_URL i) w))
    by (rewrite load_precincts_outcome, Hp; reflexivity).
  cbn [py_iter]. rewrite bind_lift_ok. apply completes_for_each. intros p Hin.
  apply completes_precinct. exact (proj1 (forallb_forall _ _) Hok p Hin).
Qed.

End Server.

(** C8: a server that keeps the endpoints' contract lets the run
    complete: the script raises no exception, whatever the contents of
    the replies and pages within the contract. *)
Theorem run_completes (E : env) (old : string) :
  serves_well E -> fst (run E old) = Ok tt.
Proof.
  intros HE. unfold run, main, bind at 1, open_output. rewrite (sw_open E HE).
  unfold try_finally.
  destruct (completes_for_each county_ids (process_county E) (fun i _ => completes_county E HE i)
              (World EmptyString (w_trace (World old []) ++ [EvOpen output_path]))) as [w' Hw].
  rewrite Hw. reflexivity.
Qed.

Lemma scenario_serves_well : serves_well scenario_env.
Proof.
  split; [reflexivity| |].
  - intros tr i. cbn. destruct (Z.eqb i 3); eexists; split; reflexivity.
  - intros tr url. eexists. split; reflexivity.
Qed.

Lemma run_completes_witness : fst (run scenario_env "") = Ok tt.
Proof. apply run_completes. exact scenario_serves_well. Defined.

(** ** A bound on the requests *)

Definition is_get (ev : event) : bool := match ev with EvGet _ => true | _ => false end.

(** The number of events of the trace that [f] selects. *)
Definition count (f : event -> bool) (w : world) : nat := length (filter f (w_trace w)).

Lemma count_log f ev w : count f (log ev w) = count f w + (if f ev then 1 else 0).
Proof. unfold count, log. simpl. rewrite filter_app, length_app. simpl. destruct (f ev); reflexivity. Qed.

(** The number of detail requests made so far. *)
Definition gets : world -> nat := count is_get.

(** A step that appends one event, not a detail request, costs nothing. *)
Lemma bounded_log_step {A} (m : M A) ev :
  is_get ev = false -> (forall w, w_trace (snd (m w)) = (w_trace w ++ [ev])%list) -> bounded gets 0 m.
Proof. intros Hev Hm w. unfold gets, count. rewrite Hm, filter_app, length_app. simpl. rewrite Hev. simpl. lia. Qed.

Lemma bounded_fetch_page E url : bounded gets 1 (fetch_page E url).
Proof. intros w. rewrite fetch_page_outcome. cbn [snd]. unfold gets. rewrite count_log. reflexivity. Qed.

Lemma bounded_precinct E p : bounded gets 1 (process_precinct E p).
Proof.
  unfold process_precinct. apply bounded_bind_lift. intros desc.
  destruct (py_eq_str desc sentinel); [apply bounded_ret|].
  do 4 (apply bounded_bind_lift; intros ?).
  apply (bounded_bind _ _ _ 1 0); [apply bounded_fetch_page| |lia]. intros pg.
  do 4 (apply bounded_bind_lift; intros ?).
  apply (bounded_bind _ _ _ 0 0); [|intros _|lia];
    (eapply bounded_log_step; [|intros w; reflexivity]); reflexivity.
Qed.

(** A county whose reply lists at most [n] items costs at most [n]
    detail requests. *)
Lemma bounded_county E i n :
  (forall tr st v ps, env_post E tr i = PostReply st (Decoded v) -> py_iter v = Ok ps -> length ps <= n) ->
  bounded gets n (process_county E i).
Proof.
  intros Hn w. unfold process_county, bind at 1. rewrite load_precincts_outcome.
  assert (Hw : gets (log (EvPost PRECINCT_LIST_URL i) w) = gets w) by (unfold gets; rewrite count_log; simpl; lia).
  destruct (env_post E (w_trace w) i) as [|st [v| | |]] eqn:Hp; simpl; try lia.
  destruct (py_iter v) as [ps|e] eqn:Hi; simpl; [rewrite bind_lift_ok|lia].
  assert (Hb := bounded_for_each gets ps (process_precinct E) 1 (fun p _ => bounded_precinct E p)
                  (log (EvPost PRECINCT_LIST_URL i) w)).
  specialize (Hn _ _ _ _ Hp Hi). nia.
Qed.

(** C16: the run stops after a bounded amount of work: when no reply
    to the precinct-list request lists more than [n] items, the script
    makes at most [100 * n] detail requests, whether it completes or
    stops on an exception. *)
Theorem run_gets_bounded (E : env) (old : string) (n : nat) :
  (forall tr i st v ps, env_post E tr i = PostReply st (Decoded v) -> py_iter v = Ok ps -> length ps <= n) ->
  gets (snd (run E old)) <= 100 * n.
Proof.
  intros Hn. unfold run, main, bind at 1, open_output.
  destruct (env_open E); [|apply Nat.le_0_l].
  lazy beta iota.
  assert (Hb : bounded gets (length county_ids * n + 0)
                 (try_finally (for_each county_ids (process_county E)) close_output)).
  { apply bounded_try_finally.
    - apply bounded_for_each. intros i _. apply bounded_county. intros tr. apply Hn.
    - eapply bounded_log_step; [|intros w; reflexivity]. reflexivity. }
  match goal with |- gets (snd (_ ?w0)) <= _ =>
    specialize (Hb w0); assert (H0 : gets w0 = 0) by reflexivity end.
  assert (Hlen : length county_ids = 100) by reflexivity.
  rewrite Hlen, H0 in Hb. lia.
Qed.

Lemma run_gets_bounded_witness : gets (snd (run scenario_env "")) <= 100 * 2.
Proof.
  apply run_gets_bounded. intros tr i st v ps Hp Hi. cbn in Hp.
  destruct (Z.eqb i 3); injection Hp as _ <-; injection Hi as <-; simpl; lia.
Defined.

End Progress.
