(* ===== verification/Effects.v ===== *)
(** * The exceptions the script raises and the effects around each row

    Module [Effects] holds three statements about every run, for every
    server:
    - the exceptions the script can raise, sorted into the error taxonomy
      of the spec (section 7: transport, decode, structure, I/O) and the
      class the spec leaves out, schema errors ([KeyError] on one of the
      five fields read, [TypeError] on a value of the wrong type,
      [OverflowError] and [ValueError] on an infinite or NaN float id);
    - every row is written right after the GET of its detail URL, and the
      county id in that URL and the county id in the row are two
      renderings of the same JSON value ([%d] and [str()]);
    - one sleep follows every written row, and a completed run makes
      exactly one detail request per row. *)

From Stdlib Require Import String List ZArith Bool Lia.
From Stdlib Require Import Floats.SpecFloat.
From S2P Require Import Prelude.
From S2P Require Import PyValue.
From S2P Require Import Soup.
From S2P Require Import Csv.
From S2P Require Import CsvLimit.
From S2P Require Import Scraper.
From S2P Require Import Agree.
From S2P Require Import Progress.
Import ListNotations.

Module Effects.
Import Py Soup SoupFacts Csv CsvReader CsvFacts CsvLimit Scraper ScraperFacts Agree Progress.

(** ** The exceptions of a run *)












Section Server.
Variable E : env.






End Server.




(** ** Each row follows the fetch of its detail page *)

(** The row [fs] is the one whose detail page [u] was fetched: the county
    id of the URL is the [%d] rendering of a value whose [str()] is the
    row's first field. *)
Definition row_follows (prev : event) (fs : list string) : Prop :=
  match prev with
  | EvGet u => exists v c q, u = precinct_addr_url c q /\ fmt_d v = Ok c /\ hd "" fs = field_text v
  | _ => False
  end.

(** Every [EvWrite] of the trace satisfies [row_follows] with the event
    just before it ([prev] for the first one). *)
Fixpoint writes_follow_gets (prev : event) (tr : list event) : Prop :=
  match tr with
  | [] => True
  | ev :: tr' =>
      (match ev with EvWrite fs => row_follows prev fs | _ => True end) /\ writes_follow_gets ev tr'
  end.

Lemma last_cons_default {A} (x : A) l d : last (x :: l) d = last l x.
Proof.
  revert x d. induction l as [|y l IH]; intros x d; [reflexivity|].
  change (last (y :: l) d = last (y :: l) x). rewrite !IH. reflexivity.
Qed.

Lemma writes_follow_gets_snoc p tr ev :
  writes_follow_gets p (tr ++ [ev]) <->
  writes_follow_gets p tr /\ match ev with EvWrite fs => row_follows (last tr p) fs | _ => True end.
Proof.
  revert p. induction tr as [|x tr IH]; intros p; cbn [app writes_follow_gets].
  - simpl. tauto.
  - rewrite IH, last_cons_default. tauto.
Qed.

Lemma writes_follow_gets_app p a x b :
  writes_follow_gets p (a ++ x :: b) -> writes_follow_gets (last a p) (x :: b).
Proof.
  revert p. induction a as [|y a IH]; intros p; cbn [app]; [tauto|].
  intros [_ H]. rewrite last_cons_default. exact (IH y H).
Qed.

(** The invariant, on the trace of a world; [EvClose] stands for the
    absent event before the first. *)
Definition wfg (w : world) : Prop := writes_follow_gets EvClose (w_trace w).

Lemma wfg_log ev w : (forall fs, ev <> EvWrite fs) -> wfg w -> wfg (log ev w).
Proof.
  intros Hev Hw. unfold wfg, log. simpl. apply writes_follow_gets_snoc. split; [exact Hw|].
  destruct ev; auto. exfalso. eapply Hev. reflexivity.
Qed.

Lemma preserves_bind_lift_snd {A B} (P : world -> Prop) (r : res exn A) (k : A -> M B) w :
  P w -> (forall a, r = Ok a -> P (snd (k a w))) -> P (snd (bind (lift r) k w)).
Proof. intros Hw Hk. destruct r as [a|e]; [apply Hk; reflexivity|exact Hw]. Qed.

Section Server.
Variable E : env.

Lemma wfg_precinct p : preserves wfg (process_precinct E p).
Proof.
  unfold process_precinct. apply preserves_bind_lift. intros desc _.
  destruct (py_eq_str desc sentinel); [apply preserves_ret|].
  apply preserves_bind_lift. intros name _. apply preserves_bind_lift. intros cid Hcid.
  apply preserves_bind_lift. intros pid _. apply preserves_bind_lift. intros url Hurl.
  intros w Hw. unfold bind at 1. rewrite fetch_page_outcome.
  assert (Hw1 : wfg (log (EvGet url) w)) by (apply wfg_log; [discriminate|exact Hw]).
  destruct (get_outcome _) as [pg|e]; [|exact Hw1].
  do 4 (apply preserves_bind_lift_snd; [exact Hw1|intros ? ?]).
  unfold wfg. simpl. rewrite writes_follow_gets_snoc. split; [|exact I].
  rewrite writes_follow_gets_snoc. split; [exact Hw1|].
  rewrite last_last. match goal with H : getitem p "CountyID" = Ok ?c' |- _ => rewrite Hcid in H; injection H as <- end.
  unfold format_addr_url in Hurl.
  destruct (fmt_d cid) as [c|] eqn:Hc; [|discriminate]. destruct (fmt_d pid) as [q|]; [|discriminate].
  injection Hurl as <-. exists cid, c, q. auto.
Qed.

Lemma wfg_county i : preserves wfg (process_county E i).
Proof.
  unfold process_county, load_precincts. preserves_chain.
  - intros w Hw. apply wfg_log; [discriminate|exact Hw].
  - destruct a as [|st b]; preserves_chain.
  - apply preserves_for_each. intros p _. apply wfg_precinct.
Qed.

End Server.

(** C9: for every server, every row the script writes is written right
    after the GET of its detail URL, and the [CountyID] text in that URL
    ([%d]) and the row's first field ([str()]) render the same JSON
    value. *)
Theorem run_rows_follow_fetch (E : env) (old : string) a fs b :
  w_trace (snd (run E old)) = (a ++ EvWrite fs :: b)%list ->
  exists v c q, last a EvClose = EvGet (precinct_addr_url c q) /\ fmt_d v = Ok c /\ hd "" fs = field_text v.
Proof.
  intros Htr.
  assert (Hw : wfg (snd (run E old))).
  { unfold run, main, bind at 1, open_output. destruct (env_open E); [|exact I].
    apply preserves_try_finally.
    - apply preserves_for_each. intros i _. apply wfg_county.
    - apply preserves_modify. intros w Hw. apply wfg_log; [discriminate|exact Hw].
    - apply wfg_log; [discriminate|exact I]. }
  unfold wfg in Hw. rewrite Htr in Hw. apply writes_follow_gets_app in Hw as [Hf _].
  destruct (last a EvClose); try contradiction. destruct Hf as (v & c & q & -> & Hc & Hh).
  exists v, c, q. auto.
Qed.

Lemma run_rows_follow_fetch_witness :
  exists v c q,
    last [EvOpen output_path; EvPost PRECINCT_LIST_URL 1; EvPost PRECINCT_LIST_URL 2;
          EvPost PRECINCT_LIST_URL 3; EvGet (precinct_addr_url "3" "12")] EvClose =
      EvGet (precinct_addr_url c q) /\ fmt_d v = Ok c /\
    hd "" ["3"; "01"; "Oak Grove"; "Oak Grove Fire Station"; "123 Main St, Oak Grove, NC 27565"] =
      field_text v.
Proof.
  apply (run_rows_follow_fetch scenario_env ""
           [EvOpen output_path; EvPost PRECINCT_LIST_URL 1; EvPost PRECINCT_LIST_URL 2;
            EvPost PRECINCT_LIST_URL 3; EvGet (precinct_addr_url "3" "12")]
           ["3"; "01"; "Oak Grove"; "Oak Grove Fire Station"; "123 Main St, Oak Grove, NC 27565"]
           (EvSleep :: map (EvPost PRECINCT_LIST_URL) (range 4 101) ++ [EvClose])).
  vm_compute. reflexivity.
Defined.

(** ** One sleep per row, one fetch per row *)

Definition is_write (ev : event) : bool := match ev with EvWrite _ => true | _ => false end.
Definition is_sleep (ev : event) : bool := match ev with EvSleep => true | _ => false end.

Lemma count_snoc f w w' ev :
  w_trace w' = (w_trace w ++ [ev])%list -> count f w' = count f w + (if f ev then 1 else 0).
Proof. intros H. unfold count. rewrite H, filter_app, length_app. simpl. destruct (f ev); reflexivity. Qed.

(** Rows written and sleeps taken are equal in number. *)
Definition slept_per_row (w : world) : Prop := count is_sleep w = count is_write w.

(** Detail requests and rows written are equal in number. *)
Definition fetched_per_row (w : world) : Prop := count is_get w = count is_write w.

Lemma write_sleep_ok row w : (write_row row ;; sleep) w = (Ok tt, snd ((write_row row ;; sleep) w)).
Proof. reflexivity. Qed.

(** Lines 31-32 add one row and one sleep. *)
Lemma write_sleep_count f row w :
  count f (snd ((write_row row ;; sleep) w)) =
  count f w + (if f (EvWrite (map field_text row)) then 1 else 0) + (if f EvSleep then 1 else 0).
Proof.
  rewrite (count_snoc f (snd (write_row row w)) (snd ((write_row row ;; sleep) w)) EvSleep eq_refl).
  rewrite (count_snoc f w (snd (write_row row w)) (EvWrite (map field_text row)) eq_refl). reflexivity.
Qed.

Section Server.
Variable E : env.

Lemma slept_log ev w : is_write ev = false -> is_sleep ev = false -> slept_per_row w -> slept_per_row (log ev w).
Proof. intros H1 H2 Hw. unfold slept_per_row in *. rewrite !count_log, H1, H2. lia. Qed.

Lemma slept_precinct p : preserves slept_per_row (process_precinct E p).
Proof.
  unfold process_precinct. apply preserves_bind_lift. intros desc _.
  destruct (py_eq_str desc sentinel); [apply preserves_ret|].
  do 4 (apply preserves_bind_lift; intros ? _).
  apply preserves_bind; [intros w Hw; rewrite fetch_page_outcome; apply slept_log; auto|intros pg].
  do 4 (apply preserves_bind_lift; intros ? _).
  intros w Hw. unfold slept_per_row in *. rewrite !write_sleep_count. simpl. lia.
Qed.

Lemma slept_county i : preserves slept_per_row (process_county E i).
Proof.
  unfold process_county, load_precincts. preserves_chain.
  - intros w Hw. apply slept_log; auto.
  - destruct a as [|st b]; preserves_chain.
  - apply preserves_for_each. intros p _. apply slept_precinct.
Qed.

(** A detail request adds one request and no row. *)
Lemma fetch_counts url :
  triple fetched_per_row (fetch_page E url) (fun _ w => count is_get w = S (count is_write w))
         (fun _ _ => True).
Proof.
  intros w Hw. rewrite fetch_page_outcome. unfold fetched_per_row in Hw.
  destruct (get_outcome _); [|exact I]. rewrite !count_log. simpl. lia.
Qed.

Lemma fetched_precinct p :
  triple fetched_per_row (process_precinct E p) (fun _ => fetched_per_row) (fun _ _ => True).
Proof.
  unfold process_precinct.
  eapply triple_bind; [apply triple_lift_keep; auto|intros desc].
  destruct (py_eq_str desc sentinel); [intros w Hw; exact Hw|].
  do 4 (eapply triple_bind; [apply triple_lift_keep; auto|intros ?]).
  eapply triple_bind; [apply fetch_counts|intros pg].
  do 4 (eapply triple_bind; [apply triple_lift_keep; auto|intros ?]).
  intros w Hw. rewrite write_sleep_ok. unfold fetched_per_row in *. rewrite !write_sleep_count. simpl. lia.
Qed.

Lemma fetched_county i :
  triple fetched_per_row (process_county E i) (fun _ => fetched_per_row) (fun _ _ => True).
Proof.
  unfold process_county.
  apply (triple_bind _ _ (fun _ => fetched_per_row)).
  - intros w Hw. rewrite load_precincts_outcome.
    destruct (post_outcome _); [|exact I]. unfold fetched_per_row in *. rewrite !count_log. simpl. lia.
  - intros v. eapply triple_bind; [apply triple_lift_keep; auto|intros ps].
    apply triple_for_each. intros p _. apply fetched_precinct.
Qed.

End Server.

(** C17: the throttle follows every row: on every run, completed or
    not, the script has slept exactly once per row written; and a
    completed run has made exactly one detail request per row. *)
Theorem run_one_sleep_and_fetch_per_row (E : env) (old : string) :
  count is_sleep (snd (run E old)) = count is_write (snd (run E old)) /\
  (fst (run E old) = Ok tt -> count is_get (snd (run E old)) = count is_write (snd (run E old))).
Proof.
  rewrite run_eq. destruct (env_open E); [|split; [reflexivity|discriminate]]. split.
  - apply (preserves_try_finally slept_per_row).
    + apply preserves_for_each. intros i _. apply slept_county.
    + apply preserves_modify. intros w Hw. apply slept_log; auto.
    + reflexivity.
  - unfold try_finally.
    assert (Hf := triple_for_each fetched_per_row county_ids (process_county E) (fun _ _ => True)
                    (fun i _ => fetched_county E i) (World EmptyString [EvOpen output_path]) eq_refl).
    destruct (for_each county_ids (process_county E) _) as [[u|e] w1]; simpl; [|discriminate].
    intros _. unfold fetched_per_row in Hf. unfold close_output, modify. cbn [snd].
    rewrite !count_log. simpl. lia.
Qed.

Lemma run_one_sleep_and_fetch_per_row_witness :
  count is_get (snd (run scenario_env "")) = count is_write (snd (run scenario_env "")).
Proof. apply (proj2 (run_one_sleep_and_fetch_per_row scenario_env "")). vm_compute. reflexivity. Defined.

(** ** The output file under the reader as the program leaves it *)

(** C20: for every server, whether the run completes or stops on an
    exception, [csv.reader] with its default field size limit reads the
    output file back as the rows written exactly when none of their
    fields (an address, a name scraped from the server) is longer than
    131072 characters. *)
Theorem run_output_default_reader (E : env) (old : string) :
  env_open E = true ->
  csv_read_default (w_file (snd (run E old))) = Ok (written (w_trace (snd (run E old)))) <->
  Forall (Forall (fits field_size_limit)) (written (w_trace (snd (run E old)))).
Proof.
  intros Hopen. destruct (out_inv_run E old Hopen) as [Hf _]. rewrite Hf. unfold csv_read_default. split.
  - intros H. exact (proj2 (csv_read_limited_sound field_size_limit _ _ ltac:(unfold field_size_limit; lia) H)).
  - apply written_rows_fit_read.
Qed.

Lemma run_output_default_reader_witness :
  csv_read_default (w_file (snd (run scenario_env ""))) = Ok (written (w_trace (snd (run scenario_env "")))) <->
  Forall (Forall (fits field_size_limit)) (written (w_trace (snd (run scenario_env "")))).
Proof. exact (run_output_default_reader scenario_env "" eq_refl). Defined.

End Effects.
